(** * Post-save script export hook of [jupyter_notebook_config.py]

    A shallow embedding of the configuration script's two functions,
    [script_post_save] and [export_script], together with the library
    routines they call and a small model of the world they act on: a
    directory tree, the module global [_script_exporter], and the sequence
    of calls made to the outside (exporter, file system, logger).

    The library routines follow their Python sources: [os.path] as in
    [posixpath.py] and [genericpath.py] (a POSIX host), [os.makedirs] as in
    [os.py], the text layer of [io.open] as in [_pyio.py], and
    [to_api_path] as in [notebook/utils.py]. The exporter is a parameter:
    constructing it never raises, and converting is a function of the
    exporter, the tree and the file name that returns or raises and leaves
    the tree and the logger alone. *)

From Stdlib Require Import ZArith NArith List Ascii String Lia.
From stdpp Require Import base tactics option list gmap strings.

Local Open Scope Z_scope.

(** ** Python strings

    A [str] is a sequence of Unicode code points. *)

Abbreviation char := N.
Abbreviation pystr := (list N).

(** A literal of the source, given by its ASCII spelling. *)
Definition lit (s : string) : pystr :=
  List.map N_of_ascii (list_ascii_of_string s).

Definition sep : char := 47%N.      (* os.path.sep, "/" *)
Definition extsep : char := 46%N.   (* os.path.extsep, "." *)
Definition LF : char := 10%N.
Definition CR : char := 13%N.

Module Str.

(** [s.rfind(c)] for a one-character [c]: the highest index holding [c],
    or -1. *)
Fixpoint rfind (c : char) (s : pystr) : Z :=
  match s with
  | [] => -1
  | x :: t =>
      let r := rfind c t in
      if 0 <=? r then r + 1
      else if decide (x = c) then 0 else -1
  end.

(** [s[:i]], [s[i:]] and [s[i:j]] for indices that are not negative. *)
Definition upto (s : pystr) (i : Z) : pystr := take (Z.to_nat i) s.
Definition from (s : pystr) (i : Z) : pystr := drop (Z.to_nat i) s.
Definition slice (s : pystr) (i j : Z) : pystr := upto (from s i) (j - i).

(** [s.startswith(r)]. *)
Fixpoint startswith (s r : pystr) {struct r} : bool :=
  match r, s with
  | [], _ => true
  | _ :: _, [] => false
  | y :: r', x :: s' => bool_decide (x = y) && startswith s' r'
  end.

(** [s.endswith(c)] for a one-character [c]. *)
Definition endswith (s : pystr) (c : char) : bool :=
  bool_decide (last s = Some c).

(** [s.lstrip(c)], [s.rstrip(c)] and [s.strip(c)] for a one-character
    [c]. *)
Fixpoint lstrip (c : char) (s : pystr) : pystr :=
  match s with
  | [] => []
  | x :: t => if decide (x = c) then lstrip c t else s
  end.

Fixpoint rstrip (c : char) (s : pystr) : pystr :=
  match s with
  | [] => []
  | x :: t =>
      match rstrip c t with
      | [] => if decide (x = c) then [] else [x]
      | r => x :: r
      end
  end.

Definition strip (c : char) (s : pystr) : pystr := rstrip c (lstrip c s).

(** [s.split(c)]: the fields between the occurrences of [c]; the empty
    string has the one field [""]. *)
Fixpoint split (c : char) (s : pystr) : list pystr :=
  match s with
  | [] => [[]]
  | x :: t =>
      if decide (x = c) then [] :: split c t
      else match split c t with
           | f :: fs => (x :: f) :: fs
           | [] => [[x]]
           end
  end.

(** [j.join(parts)]. *)
Fixpoint join (j : pystr) (parts : list pystr) : pystr :=
  match parts with
  | [] => []
  | [p] => p
  | p :: ps => p ++ j ++ join j ps
  end.

(** [c * n]. *)
Definition times (c : char) (n : nat) : pystr := replicate n c.

End Str.

(** ** [os.path] (posixpath, genericpath) *)

Module Path.

(** The [while] loop of [genericpath._splitext]; [k] is the distance
    [dotIndex - filenameIndex] still to go. *)
Fixpoint splitext_loop (p : pystr) (dotIndex : Z) (k : nat)
    (filenameIndex : Z) : option (pystr * pystr) :=
  match k with
  | O => None
  | S k' =>
      if decide (Str.slice p filenameIndex (filenameIndex + 1) ≠ [extsep])
      then Some (Str.upto p dotIndex, Str.from p dotIndex)
      else splitext_loop p dotIndex k' (filenameIndex + 1)
  end.

(** [os.path.splitext(p)] ([altsep] is [None] on posix). *)
Definition splitext (p : pystr) : pystr * pystr :=
  let sepIndex := Str.rfind sep p in
  let dotIndex := Str.rfind extsep p in
  let found :=
    if sepIndex <? dotIndex then
      let filenameIndex := sepIndex + 1 in
      splitext_loop p dotIndex (Z.to_nat (dotIndex - filenameIndex))
        filenameIndex
    else None in
  match found with
  | Some r => r
  | None => (p, Str.upto p 0)
  end.

(** One round of the loop of [os.path.join]. *)
Definition join1 (path b : pystr) : pystr :=
  if Str.startswith b [sep] then b
  else if bool_decide (path = []) || Str.endswith path sep then path ++ b
  else path ++ [sep] ++ b.

(** [os.path.join(a, *p)]. *)
Definition join (a : pystr) (p : list pystr) : pystr := foldl join1 a p.

(** [os.path.split(p)]. *)
Definition split (p : pystr) : pystr * pystr :=
  let i := Str.rfind sep p + 1 in
  let head := Str.upto p i in
  let tail := Str.from p i in
  let head :=
    if bool_decide (head ≠ []) &&
       bool_decide (head ≠ Str.times sep (length head))
    then Str.rstrip sep head else head in
  (head, tail).

(** [os.path.dirname(p)]. *)
Definition dirname (p : pystr) : pystr :=
  let i := Str.rfind sep p + 1 in
  let head := Str.upto p i in
  if bool_decide (head ≠ []) &&
     bool_decide (head ≠ Str.times sep (length head))
  then Str.rstrip sep head else head.

(** [os.path.isabs(p)]. *)
Definition isabs (p : pystr) : bool := Str.startswith p [sep].

End Path.

(** [notebook.utils.to_api_path(os_path, root)]. *)
Definition to_api_path (os_path root : pystr) : pystr :=
  let os_path :=
    if Str.startswith os_path root
    then Str.from os_path (Z.of_nat (length root)) else os_path in
  let parts := Str.split sep (Str.strip sep os_path) in
  let parts := filter (λ p, p ≠ []) parts in
  Str.join (lit "/") parts.


(** ** Exceptions *)

Inductive errno := ENOENT | ENOTDIR | EEXIST | EISDIR.

(** [OSError ENOENT] is Python's [FileNotFoundError], [OSError ENOTDIR] its
    [NotADirectoryError], [OSError EEXIST] its [FileExistsError] and
    [OSError EISDIR] its [IsADirectoryError]. [Raised n] stands for any
    other exception, such as those of the exporter. *)
Inductive exn :=
| KeyError (key : string)
| OSError (e : errno)
| UnicodeEncodeError
| ValueError
| LookupError
| AttributeError
| RecursionError
| Raised (tag : N).

#[global] Instance errno_eq_dec : EqDecision errno.
Proof. solve_decision. Defined.
#[global] Instance exn_eq_dec : EqDecision exn.
Proof. solve_decision. Defined.

(** ** The directory tree *)

Abbreviation bytes := (list N).

Inductive node := File (content : bytes) | Dir.

#[global] Instance node_eq_dec : EqDecision node.
Proof. solve_decision. Defined.

Module FS.

(** A tree is the finite map from the absolute, normalised component
    lists of its entries to their nodes, and a working directory; the
    root [[]] is always a directory; there are no symbolic links and no
    permissions. *)
Record t := mk { nodes : gmap (list pystr) node; cwd : list pystr }.

Definition curdir : pystr := lit ".".
Definition pardir : pystr := lit "..".

Definition lookup (fs : t) (k : list pystr) : option node :=
  match k with
  | [] => Some Dir
  | _ => nodes fs !! k
  end.

(** The names between the separators of a path. *)
Definition components (p : pystr) : list pystr :=
  filter (λ c, c ≠ []) (Str.split sep p).

(** One step of path resolution: [cur] must be a directory to be
    searched. The entry named need not exist yet. *)
Definition step (fs : t) (cur : list pystr) (c : pystr)
    : errno + list pystr :=
  match lookup fs cur with
  | None => inl ENOENT
  | Some (File _) => inl ENOTDIR
  | Some Dir =>
      if decide (c = curdir) then inr cur
      else if decide (c = pardir) then inr (removelast cur)
      else inr (cur ++ [c])
  end.

Fixpoint walk (fs : t) (cur : list pystr) (cs : list pystr)
    : errno + list pystr :=
  match cs with
  | [] => inr cur
  | c :: cs' =>
      match step fs cur c with
      | inl e => inl e
      | inr k => walk fs k cs'
      end
  end.

Definition start (fs : t) (p : pystr) : list pystr :=
  if Path.isabs p then [] else cwd fs.

(** A trailing separator asks for a directory, as a final ["."] does. *)
Definition names (p : pystr) : list pystr :=
  components p ++ (if Str.endswith p sep then [curdir] else []).

Definition resolve (fs : t) (p : pystr) : errno + list pystr :=
  if decide (p = []) then inl ENOENT
  else walk fs (start fs p) (names p).

(** [os.stat(p)], as far as the kind of node and its content go. *)
Definition stat (fs : t) (p : pystr) : errno + node :=
  match resolve fs p with
  | inl e => inl e
  | inr k =>
      match lookup fs k with
      | None => inl ENOENT
      | Some n => inr n
      end
  end.

(** [os.path.exists(p)] and [os.path.isdir(p)]. *)
Definition exists_ (fs : t) (p : pystr) : bool :=
  match stat fs p with inr _ => true | inl _ => false end.

Definition isdir (fs : t) (p : pystr) : bool :=
  match stat fs p with inr Dir => true | _ => false end.

(** The bytes of the regular file at [p], if there is one. *)
Definition read (fs : t) (p : pystr) : option bytes :=
  match stat fs p with inr (File b) => Some b | _ => None end.

(** [os.mkdir(p)]. *)
Definition mkdir (fs : t) (p : pystr) : errno + t :=
  if decide (p = []) then inl ENOENT
  else
    match walk fs (start fs p) (components p) with
    | inl e => inl e
    | inr k =>
        match lookup fs k with
        | Some _ => inl EEXIST
        | None => inr (mk (<[k := Dir]> (nodes fs)) (cwd fs))
        end
    end.

(** Opening [p] for writing (mode ['w']): the file is created, or
    truncated when it exists; the key of the file is returned. *)
Definition open_w (fs : t) (p : pystr) : errno + (list pystr * t) :=
  match resolve fs p with
  | inl e => inl e
  | inr k =>
      match lookup fs k with
      | Some Dir => inl EISDIR
      | _ => inr (k, mk (<[k := File []]> (nodes fs)) (cwd fs))
      end
  end.

(** Appending bytes to the open file at key [k]. *)
Definition append (fs : t) (k : list pystr) (b : bytes) : t :=
  match nodes fs !! k with
  | Some (File old) => mk (<[k := File (old ++ b)]> (nodes fs)) (cwd fs)
  | _ => fs
  end.

End FS.

(** ** A state and exception monad

    An action runs on a state and ends with a value or a raised exception;
    the effects made before an exception stay. *)

Definition M (S A : Type) : Type := S → (exn + A) * S.

Definition ret {S A} (a : A) : M S A := λ s, (inr a, s).
Definition raise {S A} (e : exn) : M S A := λ s, (inl e, s).
Definition bind {S A B} (m : M S A) (f : A → M S B) : M S B :=
  λ s, match m s with
       | (inl e, s') => (inl e, s')
       | (inr a, s') => f a s'
       end.

Declare Scope hook_scope.
Delimit Scope hook_scope with hook.
Notation "'let*' p := m 'in' k" := (bind m (λ x, let 'p := x in k))
  (at level 10, p pattern, m at level 100, k at level 200) : hook_scope.
Notation "m ;;; k" := (bind m (λ _, k))
  (at level 100, right associativity) : hook_scope.

(** ** [os.makedirs] *)

(** The [try: mkdir(name) except OSError: ...] at the end of
    [os.makedirs]. *)
Definition mkdir_or_exists (name : pystr) (exist_ok : bool) : M FS.t unit :=
  λ fs,
    match FS.mkdir fs name with
    | inr fs' => (inr (), fs')
    | inl e =>
        if negb exist_ok || negb (FS.isdir fs name)
        then (inl (OSError e), fs)
        else (inr (), fs)
    end.

(** The body of [os.makedirs(name, exist_ok=exist_ok)], [self] standing
    for the function itself in the recursive call. *)
Definition makedirs_body (self : pystr → bool → M FS.t unit)
    (name : pystr) (exist_ok : bool) : M FS.t unit :=
  λ fs,
    let '(head, tail) := Path.split name in
    let '(head, tail) :=
      if decide (tail = []) then Path.split head else (head, tail) in
    if bool_decide (head ≠ []) && bool_decide (tail ≠ [])
       && negb (FS.exists_ fs head)
    then
      let '(r, fs1) := self head exist_ok fs in
      match r with
      | inl (OSError EEXIST) | inr _ =>
          if decide (tail = FS.curdir) then (inr (), fs1)
          else mkdir_or_exists name exist_ok fs1
      | inl e => (inl e, fs1)
      end
    else mkdir_or_exists name exist_ok fs.

(** [os.makedirs] with the depth of its recursion bounded, as the
    interpreter bounds it. *)
Fixpoint makedirs_rec (depth : nat) : pystr → bool → M FS.t unit :=
  match depth with
  | O => λ _ _, raise RecursionError
  | S depth' => makedirs_body (makedirs_rec depth')
  end.

(** [os.makedirs(name, exist_ok=exist_ok)]: a path has fewer names than
    characters, so this depth is never used up ([makedirs_depth]). *)
Definition makedirs (name : pystr) (exist_ok : bool) : M FS.t unit :=
  makedirs_rec (S (length name)) name exist_ok.

(** ** Text files ([io.open], [io.TextIOWrapper]) *)

Inductive encoding := UTF8 | Latin1 | ASCII.

(** What the host platform decides when the program does not: the
    encoding of [locale.getpreferredencoding] and [os.linesep]. *)
Record platform := { preferred_encoding : pystr; linesep : pystr }.

Module IO.

(** [codecs.lookup(name)], for the names the model knows. *)
Definition codec (name : pystr) : option encoding :=
  if decide (name = lit "utf-8") then Some UTF8
  else if decide (name = lit "utf8") then Some UTF8
  else if decide (name = lit "latin-1") then Some Latin1
  else if decide (name = lit "ascii") then Some ASCII
  else None.

(** The UTF-8 bytes of one code point; surrogates have none. *)
Definition utf8_char (c : N) : option bytes :=
  (if c <? 0x80 then Some [c]
   else if c <? 0x800 then Some [0xC0 + c / 0x40; 0x80 + c mod 0x40]
   else if c <? 0x10000 then
     if (0xD800 <=? c) && (c <=? 0xDFFF) then None
     else Some [0xE0 + c / 0x1000; 0x80 + (c / 0x40) mod 0x40;
                0x80 + c mod 0x40]
   else if c <? 0x110000 then
     Some [0xF0 + c / 0x40000; 0x80 + (c / 0x1000) mod 0x40;
           0x80 + (c / 0x40) mod 0x40; 0x80 + c mod 0x40]
   else None)%N.

Definition encode_char (enc : encoding) (c : N) : option bytes :=
  match enc with
  | UTF8 => utf8_char c
  | Latin1 => if (c <? 0x100)%N then Some [c] else None
  | ASCII => if (c <? 0x80)%N then Some [c] else None
  end.

(** [s.encode(enc)] with strict error handling. *)
Fixpoint encode (enc : encoding) (s : pystr) : option bytes :=
  match s with
  | [] => Some []
  | c :: t =>
      match encode_char enc c, encode enc t with
      | Some b, Some r => Some (b ++ r)
      | _, _ => None
      end
  end.

(** [s.replace("\n", nl)]. *)
Fixpoint replace_lf (nl : pystr) (s : pystr) : pystr :=
  match s with
  | [] => []
  | c :: t => (if decide (c = LF) then nl else [c]) ++ replace_lf nl t
  end.

(** An open text file: the key of the file in the tree and the settings
    of its [TextIOWrapper]. *)
Record handle := {
  fh_key : list pystr;
  fh_encoding : encoding;
  fh_writetranslate : bool;
  fh_writenl : pystr
}.

Definition legal_newline (newline : option pystr) : bool :=
  match newline with
  | None => true
  | Some nl =>
      bool_decide (nl = []) || bool_decide (nl = [LF])
      || bool_decide (nl = [CR]) || bool_decide (nl = [CR; LF])
  end.

(** [io.open(file, 'w', encoding=encoding, newline=newline)]: the file
    is created or truncated first, then the text layer is set up. *)
Definition open_w (pf : platform) (file : pystr)
    (encoding newline : option pystr) : M FS.t handle :=
  λ fs,
    match FS.open_w fs file with
    | inl e => (inl (OSError e), fs)
    | inr (k, fs') =>
        if negb (legal_newline newline) then (inl ValueError, fs')
        else
          match codec (default (preferred_encoding pf) encoding) with
          | None => (inl LookupError, fs')
          | Some enc =>
              let writenl :=
                match newline with
                | Some (c :: nl) => c :: nl
                | _ => linesep pf
                end in
              (inr {| fh_key := k; fh_encoding := enc;
                      fh_writetranslate :=
                        bool_decide (newline ≠ Some []);
                      fh_writenl := writenl |}, fs')
          end
    end.

(** [f.write(s)], the bytes reaching the file when it is closed at the
    end of the [with] block. *)
Definition write (f : handle) (s : pystr) : M FS.t unit :=
  λ fs,
    let s :=
      if bool_decide (LF ∈ s) && fh_writetranslate f
         && bool_decide (fh_writenl f ≠ [LF])
      then replace_lf (fh_writenl f) s else s in
    match encode (fh_encoding f) s with
    | None => (inl UnicodeEncodeError, fs)
    | Some b => (inr (), FS.append fs (fh_key f) b)
    end.

End IO.

(** ** The host's objects *)

(** The contents manager of a save: its [root_dir] and its logger [log],
    loggers being told apart by a number. *)
Record ContentsManager := { root_dir : pystr; log : N }.

(** A [ScriptExporter] with its [parent] and [template_file] attributes;
    [None] is the class's own template. *)
Record Exporter := {
  parent : ContentsManager;
  template_file : option pystr
}.

(** The calls made to the outside, in the order they are made. *)
Inductive event :=
| Construct (parent : ContentsManager)
| FromFilename (exporter : Exporter) (filename : pystr)
| Makedirs (name : pystr) (exist_ok : bool)
| LogInfo (logger : N) (msg : pystr) (args : list pystr)
| Open (file : pystr) (encoding newline : option pystr)
| Write (key : list pystr) (text : pystr).

#[global] Instance ContentsManager_eq_dec : EqDecision ContentsManager.
Proof. solve_decision. Defined.
#[global] Instance Exporter_eq_dec : EqDecision Exporter.
Proof. solve_decision. Defined.
#[global] Instance event_eq_dec : EqDecision event.
Proof. solve_decision. Defined.

(** [msg % args] for a message whose only conversions are [%s]. *)
Fixpoint percent (msg : pystr) (args : list pystr) : pystr :=
  match msg with
  | 37%N :: 115%N :: rest =>
      match args with
      | a :: args' => a ++ percent rest args'
      | [] => 37%N :: 115%N :: percent rest []
      end
  | c :: rest => c :: percent rest args
  | [] => []
  end.

(** The text a logging call emits. *)
Definition message (ev : event) : option pystr :=
  match ev with
  | LogInfo _ msg args => Some (percent msg args)
  | _ => None
  end.

(** The state of the process: the directory tree, the module global
    [_script_exporter] ([None] until the first notebook save) and the calls
    made so far. *)
Record World := {
  w_fs : FS.t;
  w_script_exporter : option Exporter;
  w_trace : list event
}.

Definition emit (ev : event) : M World unit :=
  λ w, (inr (), {| w_fs := w_fs w;
                   w_script_exporter := w_script_exporter w;
                   w_trace := w_trace w ++ [ev] |}).

Definition on_fs {A} (m : M FS.t A) : M World A :=
  λ w, let '(r, fs') := m (w_fs w) in
       (r, {| w_fs := fs';
              w_script_exporter := w_script_exporter w;
              w_trace := w_trace w |}).

Definition get_script_exporter : M World (option Exporter) :=
  λ w, (inr (w_script_exporter w), w).

Definition set_script_exporter (v : option Exporter) : M World unit :=
  λ w, (inr (), {| w_fs := w_fs w;
                   w_script_exporter := v;
                   w_trace := w_trace w |}).

(** [d[key]]. *)
Definition getitem {S} (d : gmap string pystr) (key : string) : M S pystr :=
  match d !! key with
  | Some v => ret v
  | None => raise (KeyError key)
  end.

(** ** The configuration script *)

Section Hook.

(** [dir_path], the directory of the configuration file, computed when
    the script is loaded. *)
Variable dir_path : pystr.

Variable host : platform.

(** [exporter.from_filename(filename)]: the exporter reads the tree and
    returns the rendered text and the resources, or raises. *)
Variable from_filename :
  Exporter → FS.t → pystr → exn + (pystr * gmap string pystr).

Definition nbexports_path : pystr :=
  Path.join dir_path [lit ".nbexports"].

Definition call_from_filename (exporter : option Exporter)
    (filename : pystr) : M World (pystr * gmap string pystr) :=
  match exporter with
  | None => raise AttributeError
  | Some x =>
      (emit (FromFilename x filename) ;;;
       λ w, (from_filename x (w_fs w) filename, w))%hook
  end.

Definition os_makedirs (name : pystr) (exist_ok : bool) : M World unit :=
  (emit (Makedirs name exist_ok) ;;; on_fs (makedirs name exist_ok))%hook.

Definition log_info (logger : N) (msg : pystr) (args : list pystr)
    : M World unit :=
  emit (LogInfo logger msg args).

Definition io_open_w (file : pystr) (encoding newline : option pystr)
    : M World IO.handle :=
  (emit (Open file encoding newline) ;;;
   on_fs (IO.open_w host file encoding newline))%hook.

Definition f_write (f : IO.handle) (s : pystr) : M World unit :=
  (emit (Write (IO.fh_key f) s) ;;; on_fs (IO.write f s))%hook.

Definition export_script (exporter : option Exporter)
    (model : gmap string pystr) (os_path : pystr)
    (contents_manager : ContentsManager) (kwargs : gmap string pystr)
    : M World unit :=
  (let '(base, ext) := Path.splitext os_path in
   let* (script, resources) := call_from_filename exporter os_path in
   let script_fname :=
     base ++ default (lit ".txt") (resources !! "output_extension") in
   let script_repopath :=
     to_api_path script_fname (root_dir contents_manager) in
   let log := log contents_manager in
   let script_fullpath :=
     Path.join dir_path [lit ".nbexports"; script_repopath] in
   os_makedirs (Path.dirname script_fullpath) true ;;;
   log_info log (lit "Saving script /%s") [script_fullpath] ;;;
   let* f := io_open_w script_fullpath (Some (lit "utf-8")) (Some [LF]) in
   f_write f script)%hook.

Definition script_post_save (model : gmap string pystr) (os_path : pystr)
    (contents_manager : ContentsManager) (kwargs : gmap string pystr)
    : M World unit :=
  (let* type := getitem model "type" in
   if decide (type ≠ lit "notebook") then ret ()
   else
     let* g := get_script_exporter in
     (if decide (g = None) then
        emit (Construct contents_manager) ;;;
        set_script_exporter
          (Some {| parent := contents_manager; template_file := None |}) ;;;
        let* g := get_script_exporter in
        set_script_exporter
          ((λ x, {| parent := parent x;
                    template_file :=
                      Some (Path.join dir_path
                              [lit "jupyter_script_export_template.tpl"])
                 |}) <$> g)
      else ret ()) ;;;
     let* g := get_script_exporter in
     export_script g model os_path contents_manager kwargs)%hook.

(** A save event, as the host hands it to the hook. *)
Record save := {
  s_model : gmap string pystr;
  s_os_path : pystr;
  s_contents_manager : ContentsManager;
  s_kwargs : gmap string pystr
}.

Definition on_save (s : save) : M World unit :=
  script_post_save (s_model s) (s_os_path s) (s_contents_manager s)
    (s_kwargs s).

(** The saves of one process, one after the other; a hook that raises
    does not end the process. *)
Definition process (saves : list save) (w : World) : World :=
  foldl (λ w s, (on_save s w).2) w saves.

End Hook.

(** ** Notions used to state the properties *)

(** The exporter as it is once [script_post_save] has built it. *)
Definition new_exporter (dir_path : pystr) (cm : ContentsManager)
    : Exporter :=
  {| parent := cm;
     template_file :=
       Some (Path.join dir_path [lit "jupyter_script_export_template.tpl"])
  |}.

(** The exporter a notebook save in world [w] converts with. *)
Definition exporter_in_use (dir_path : pystr) (cm : ContentsManager)
    (w : World) : Exporter :=
  default (new_exporter dir_path cm) (w_script_exporter w).

(** The construction a notebook save in world [w] makes, if any. *)
Definition construction (cm : ContentsManager) (w : World) : list event :=
  match w_script_exporter w with
  | None => [Construct cm]
  | Some _ => []
  end.

(** The path of the export file for output extension [ext]. *)
Definition export_target (dir_path root os_path ext : pystr) : pystr :=
  Path.join dir_path
    [lit ".nbexports"; to_api_path ((Path.splitext os_path).1 ++ ext) root].

Definition is_notebook (model : gmap string pystr) : bool :=
  bool_decide (model !! "type" = Some (lit "notebook")).

Definition with_calls (w : World) (fs : FS.t) (x : option Exporter)
    (evs : list event) : World :=
  {| w_fs := fs; w_script_exporter := x; w_trace := w_trace w ++ evs |}.

Definition is_construct (ev : event) : bool :=
  match ev with Construct _ => true | _ => false end.
Definition is_conversion (ev : event) : bool :=
  match ev with FromFilename _ _ => true | _ => false end.
Definition is_log (ev : event) : bool :=
  match ev with LogInfo _ _ _ => true | _ => false end.
Definition is_fs_call (ev : event) : bool :=
  match ev with Makedirs _ _ | Open _ _ _ | Write _ _ => true | _ => false end.

(** ** Worked scenarios *)

Module Demo.

(** The configuration file lies in [/proj], which is also the storage
    root; the tree holds nothing but that directory. *)
Definition dir_path : pystr := lit "/proj".
Definition tree : FS.t := FS.mk {[ [lit "proj"] := Dir ]} [].
Definition start : World :=
  {| w_fs := tree; w_script_exporter := None; w_trace := [] |}.
Definition manager : ContentsManager :=
  {| root_dir := lit "/proj"; log := 7%N |}.

(** A host that prefers Latin-1 and ends lines with carriage return and
    line feed, and one that prefers UTF-8 and ends them with line feed. *)
Definition host_crlf : platform :=
  {| preferred_encoding := lit "latin-1"; linesep := [CR; LF] |}.
Definition host_lf : platform :=
  {| preferred_encoding := lit "utf-8"; linesep := [LF] |}.

(** An exporter rendering every notebook as [print(1)] and a line feed,
    with extension [.py]; one that names no extension; one that fails. *)
Definition script : pystr := lit "print(1)" ++ [LF].
Definition python (x : Exporter) (fs : FS.t) (p : pystr)
    : exn + (pystr * gmap string pystr) :=
  inr (script, {[ "output_extension" := lit ".py" ]}).
Definition plain (x : Exporter) (fs : FS.t) (p : pystr)
    : exn + (pystr * gmap string pystr) :=
  inr (script, ∅).
Definition broken (x : Exporter) (fs : FS.t) (p : pystr)
    : exn + (pystr * gmap string pystr) :=
  inl (Raised 1).

Definition notebook : gmap string pystr := {[ "type" := lit "notebook" ]}.
Definition file : gmap string pystr := {[ "type" := lit "file" ]}.
Definition directory : gmap string pystr :=
  {[ "type" := lit "directory" ]}.

Definition demo_ipynb : pystr := lit "/proj/demo.ipynb".
Definition nested_ipynb : pystr := lit "/proj/a/b/Notebook.ipynb".

(** A tree in which a regular file sits where [.nbexports] should be. *)
Definition blocked : World :=
  {| w_fs := FS.mk {[ [lit "proj"] := Dir;
                      [lit "proj"; lit ".nbexports"] := File [] ]} [];
     w_script_exporter := None; w_trace := [] |}.

End Demo.

(** A relative path of the host's API: names that are not empty, with
    one separator between them. *)
Definition api_path (q : pystr) : Prop :=
  Forall (λ c, c ≠ []) (Str.split sep q).

(** A directory part is empty or ends in a separator. *)
Definition dir_part (a : pystr) : Prop := a = [] ∨ last a = Some sep.

(** The kinds of entry a lookup can find. *)
Definition is_dir (o : option node) : bool :=
  match o with Some Dir => true | _ => false end.
Definition is_file (o : option node) : bool :=
  match o with Some (File _) => true | _ => false end.

(** A name that is an entry's own: not ["."] and not [".."]. *)
Definition regular (c : pystr) : Prop := c ≠ FS.curdir ∧ c ≠ FS.pardir.

#[global] Instance regular_dec c : Decision (regular c).
Proof. unfold regular. apply _. Defined.

(** The keys met on the way from [cur] down the names [cs]. *)
Fixpoint chain (cur : list pystr) (cs : list pystr) : list (list pystr) :=
  match cs with
  | [] => []
  | c :: cs' => (cur ++ [c]) :: chain (cur ++ [c]) cs'
  end.

(** The tree with directories at [keys]. *)
Definition add_dirs (keys : list (list pystr)) (fs : FS.t) : FS.t :=
  FS.mk (foldl (λ m k, <[k := Dir]> m) (FS.nodes fs) keys) (FS.cwd fs).

(** Nothing stands in the way of making directory [d]: its names are
    entries' own, the directory the path starts from exists, and no name on
    the way is taken by a regular file. *)
Definition way_clear (fs : FS.t) (d : pystr) : Prop :=
  d ≠ []
  ∧ Forall regular (FS.components d)
  ∧ FS.lookup fs (FS.start fs d) = Some Dir
  ∧ Forall (λ k, is_file (FS.lookup fs k) = false)
      (chain (FS.start fs d) (FS.components d)).

(** The file [target] can be exported to: the way to its directory is
    clear, and its own name is an entry's own that no directory has. *)
Definition can_export (fs : FS.t) (target : pystr) : Prop :=
  Str.endswith target sep = false
  ∧ way_clear fs (Path.dirname target)
  ∧ Forall regular (FS.components target)
  ∧ is_dir (FS.lookup fs (FS.start fs target ++ FS.components target))
    = false.

(** The tree after a successful export of the bytes [b] to [target]. *)
Definition exported (fs : FS.t) (target : pystr) (b : bytes) : FS.t :=
  let d := Path.dirname target in
  let fs1 := add_dirs (chain (FS.start fs d) (FS.components d)) fs in
  FS.mk (<[FS.start fs target ++ FS.components target := File b]>
           (FS.nodes fs1))
    (FS.cwd fs).

(** The second tree has every directory of the first, and its working
    directory. *)
Definition dirs_kept (fs fs' : FS.t) : Prop :=
  FS.cwd fs' = FS.cwd fs
  ∧ ∀ k, FS.lookup fs k = Some Dir → FS.lookup fs' k = Some Dir.

(** The calls made between world [w] and a later world [w']. *)
Definition calls_since (w w' : World) : list event :=
  drop (length (w_trace w)) (w_trace w').

(** The second tree has every entry of the first, unchanged, and its
    working directory; it may have more. *)
Definition entries_kept (fs fs' : FS.t) : Prop :=
  FS.cwd fs' = FS.cwd fs
  ∧ ∀ k nd, FS.nodes fs !! k = Some nd → FS.nodes fs' !! k = Some nd.

(** The names of the parameters of [export_script]. The hook forwards
    its keyword arguments to [export_script] after four positional
    arguments, so a keyword of one of these names cannot be forwarded:
    Python refuses the call. The host's call passes no such keyword, and
    the embedding of the call takes the keywords to be forwardable. *)
Definition export_script_params : list string :=
  ["exporter"; "model"; "os_path"; "contents_manager"].

Definition forwardable (kwargs : gmap string pystr) : Prop :=
  Forall (λ name, kwargs !! name = None) export_script_params.

(** The notebook saves among the saves of a process. *)
Definition notebooks_of (saves : list save) : list save :=
  List.filter (λ s, is_notebook (s_model s)) saves.

(** ** Further scenarios *)

Module Cases.

(** A save event whose model carries its content besides its type. *)
Definition full_notebook : gmap string pystr :=
  {[ "type" := lit "notebook"; "content" := lit "cells"; "name" := lit "demo.ipynb" ]}.

(** A tree in which the export of [/proj/demo.ipynb] is there already,
    with other bytes, beside a notebook. *)
Definition exported_before : World :=
  {| w_fs := FS.mk {[ [lit "proj"] := Dir;
                      [lit "proj"; lit "demo.ipynb"] := File [123%N; 125%N];
                      [lit "proj"; lit ".nbexports"] := Dir;
                      [lit "proj"; lit ".nbexports"; lit "demo.py"]
                        := File [111%N; 108%N; 100%N] ]} [];
     w_script_exporter := None; w_trace := [] |}.

(** A tree in which a directory has the name of the export file. *)
Definition occupied : World :=
  {| w_fs := FS.mk {[ [lit "proj"] := Dir;
                      [lit "proj"; lit ".nbexports"] := Dir;
                      [lit "proj"; lit ".nbexports"; lit "demo.py"] := Dir ]}
               [];
     w_script_exporter := None; w_trace := [] |}.

(** An exporter whose script holds a lone surrogate. *)
Definition surrogate (x : Exporter) (fs : FS.t) (p : pystr)
    : exn + (pystr * gmap string pystr) :=
  inr ([0xD800%N], {[ "output_extension" := lit ".py" ]}).

(** Two contents managers and a sequence of saves: a file, a notebook of
    the first manager, a directory, a notebook of the second manager. *)
Definition other_manager : ContentsManager :=
  {| root_dir := lit "/proj"; log := 8%N |}.

Definition saves : list save :=
  [ {| s_model := Demo.file; s_os_path := lit "/proj/notes.txt";
       s_contents_manager := Demo.manager; s_kwargs := ∅ |};
    {| s_model := Demo.notebook; s_os_path := Demo.demo_ipynb;
       s_contents_manager := Demo.manager; s_kwargs := ∅ |};
    {| s_model := Demo.directory; s_os_path := lit "/proj/a";
       s_contents_manager := Demo.manager; s_kwargs := ∅ |};
    {| s_model := Demo.notebook; s_os_path := Demo.nested_ipynb;
       s_contents_manager := other_manager; s_kwargs := ∅ |} ].

End Cases.

(** Brings two lists of calls to the same bracketing. *)
Ltac trace_eq := cbn; rewrite <- ?app_assoc; cbn; rewrite ?app_nil_r.

(** * Properties *)

#[global] Arguments lit : simpl never.
#[global] Arguments Path.join : simpl never.
#[global] Arguments Path.dirname : simpl never.
#[global] Arguments Path.splitext : simpl never.
#[global] Arguments Path.split : simpl never.
#[global] Arguments to_api_path : simpl never.
#[global] Arguments makedirs : simpl never.
#[global] Arguments FS.open_w : simpl never.
#[global] Arguments FS.append : simpl never.
#[global] Arguments IO.encode : simpl never.

(** ** The text layer as the hook sets it up *)

Lemma open_w_utf8_lf host file fs :
  IO.open_w host file (Some (lit "utf-8")) (Some [LF]) fs =
    match FS.open_w fs file with
    | inl e => (inl (OSError e), fs)
    | inr (k, fs') =>
        (inr {| IO.fh_key := k; IO.fh_encoding := UTF8;
                IO.fh_writetranslate := true; IO.fh_writenl := [LF] |}, fs')
    end.
Proof.
  unfold IO.open_w. destruct (FS.open_w fs file) as [e|[k fs']]; reflexivity.
Qed.

Lemma write_utf8_lf k s fs :
  IO.write {| IO.fh_key := k; IO.fh_encoding := UTF8;
              IO.fh_writetranslate := true; IO.fh_writenl := [LF] |} s fs =
    match IO.encode UTF8 s with
    | None => (inl UnicodeEncodeError, fs)
    | Some b => (inr (), FS.append fs k b)
    end.
Proof.
  unfold IO.write. cbn [IO.fh_writenl IO.fh_writetranslate IO.fh_encoding
                         IO.fh_key].
  rewrite (bool_decide_eq_false_2 ([LF] ≠ [LF])) by (intros H; by apply H).
  by rewrite andb_false_r.
Qed.

(** ** Strings and paths *)

Lemma filter_all {A} (P : A → Prop) `{!∀ x, Decision (P x)} (l : list A) :
  Forall P l → filter P l = l.
Proof.
  induction 1 as [|x l Hx Hl IH]; [done|].
  by rewrite filter_cons_True, IH.
Qed.

Section StrFacts.

Implicit Types (c x : char) (s t a b p : pystr).

Lemma rfind_lower c s : -1 ≤ Str.rfind c s.
Proof.
  induction s as [|x s IH]; cbn [Str.rfind]; [lia|].
  destruct (Z.leb_spec 0 (Str.rfind c s)); [lia|].
  destruct (decide (x = c)); lia.
Qed.

Lemma rfind_upper c s : Str.rfind c s < Z.of_nat (length s).
Proof.
  induction s as [|x s IH]; cbn [Str.rfind length]; [lia|].
  destruct (Z.leb_spec 0 (Str.rfind c s)); [lia|].
  destruct (decide (x = c)); lia.
Qed.

Lemma rfind_absent c s : c ∉ s → Str.rfind c s = -1.
Proof.
  induction s as [|x s IH]; [done|].
  rewrite not_elem_of_cons. intros [Hx Hs]. cbn [Str.rfind].
  rewrite (IH Hs). cbn. by rewrite decide_False.
Qed.

Lemma rfind_app c a b :
  Str.rfind c (a ++ b) =
    if 0 <=? Str.rfind c b then Z.of_nat (length a) + Str.rfind c b
    else Str.rfind c a.
Proof.
  induction a as [|x a IH]; cbn [app Str.rfind length].
  - destruct (Z.leb_spec 0 (Str.rfind c b)); [lia|].
    pose proof (rfind_lower c b). lia.
  - rewrite IH. destruct (Z.leb_spec 0 (Str.rfind c b)); [|done].
    destruct (Z.leb_spec 0 (Z.of_nat (length a) + Str.rfind c b)); lia.
Qed.

Lemma rfind_dir_part a t :
  dir_part a → sep ∉ t → Str.rfind sep (a ++ t) + 1 = Z.of_nat (length a).
Proof.
  intros Ha Ht. rewrite rfind_app, (rfind_absent _ _ Ht).
  change (0 <=? -1) with false. cbv iota.
  destruct Ha as [->|[a' ->]%last_Some]; [done|].
  rewrite rfind_app, length_app.
  change (Str.rfind sep [sep]) with 0. cbn [Z.leb Z.compare length]. lia.
Qed.

Lemma rfind_sep_under a p :
  last a = Some sep →
  Str.rfind sep (a ++ p) = Z.of_nat (length a) + Str.rfind sep p.
Proof.
  intros [a' ->]%last_Some. rewrite rfind_app.
  destruct (Z.leb_spec 0 (Str.rfind sep p)); [done|].
  pose proof (rfind_lower sep p).
  rewrite rfind_app, length_app.
  change (Str.rfind sep [sep]) with 0. cbn [Z.leb Z.compare length]. lia.
Qed.

Lemma rfind_extsep_under a :
  last a = Some sep → Str.rfind extsep a < Z.of_nat (length a) - 1.
Proof.
  intros [a' ->]%last_Some. rewrite rfind_app, length_app.
  change (Str.rfind extsep [sep]) with (-1).
  change (0 <=? -1) with false. cbv iota. cbn [length].
  pose proof (rfind_upper extsep a'). lia.
Qed.

(** Every string is a directory part followed by a name. *)
Lemma dir_part_name s :
  let i := Str.rfind sep s + 1 in
  dir_part (Str.upto s i) ∧ (sep ∉ Str.from s i)
  ∧ s = Str.upto s i ++ Str.from s i.
Proof.
  cbv zeta. unfold Str.upto, Str.from.
  split; [|split]; [| |(by rewrite take_drop)].
  - induction s as [|x s IH]; [by left|]. cbn.
    destruct (Z.leb_spec 0 (Str.rfind sep s)) as [Hr|Hr].
    + replace (Z.to_nat (Str.rfind sep s + 1 + 1))
        with (S (Z.to_nat (Str.rfind sep s + 1))) by lia.
      cbn. right. destruct IH as [Hnil|Hlast].
      * apply (f_equal length) in Hnil. rewrite length_take in Hnil.
        pose proof (rfind_upper sep s). cbn in Hnil. lia.
      * destruct (take _ s) eqn:Ht; [done|]. by rewrite last_cons, Hlast.
    + destruct (decide (x = sep)) as [->|Hx]; [by right|by left].
  - induction s as [|x s IH]; [by apply not_elem_of_nil|]. cbn.
    destruct (Z.leb_spec 0 (Str.rfind sep s)) as [Hr|Hr].
    + replace (Z.to_nat (Str.rfind sep s + 1 + 1))
        with (S (Z.to_nat (Str.rfind sep s + 1))) by lia.
      done.
    + pose proof (rfind_lower sep s).
      replace (Str.rfind sep s) with (-1) in IH by lia. cbn in IH.
      destruct (decide (x = sep)) as [->|Hx]; cbn; [done|].
      by apply not_elem_of_cons.
Qed.

Lemma upto_app_length a t : Str.upto (a ++ t) (Z.of_nat (length a)) = a.
Proof. unfold Str.upto. by rewrite Nat2Z.id, take_app_length. Qed.

Lemma from_app_length a t : Str.from (a ++ t) (Z.of_nat (length a)) = t.
Proof. unfold Str.from. by rewrite Nat2Z.id, drop_app_length. Qed.

Lemma startswith_app s t : Str.startswith (s ++ t) s = true.
Proof.
  induction s as [|x s IH]; [done|]. cbn.
  by rewrite bool_decide_eq_true_2, IH.
Qed.

Lemma startswith_sep s :
  Str.startswith s [sep] = bool_decide (head s = Some sep).
Proof.
  destruct s as [|x s]; [done|]. cbn. rewrite andb_true_r.
  apply bool_decide_ext. split; [by intros ->|by intros [= ->]].
Qed.

Lemma split_sep_free c t : c ∉ t → Str.split c t = [t].
Proof.
  induction t as [|x t IH]; [done|].
  rewrite not_elem_of_cons. intros [Hx Ht]. cbn.
  rewrite decide_False by done. by rewrite (IH Ht).
Qed.

Lemma split_not_nil c s : Str.split c s ≠ [].
Proof.
  destruct s as [|x s]; [done|]. cbn.
  destruct (decide (x = c)); [done|]. by destruct (Str.split c s).
Qed.

Lemma split_app c s t :
  Str.split c (s ++ c :: t) = Str.split c s ++ Str.split c t.
Proof.
  induction s as [|x s IH]; cbn.
  - by rewrite decide_True.
  - rewrite IH. destruct (decide (x = c)); [done|].
    pose proof (split_not_nil c s). by destruct (Str.split c s).
Qed.

Lemma join_split c s : Str.join [c] (Str.split c s) = s.
Proof.
  induction s as [|x s IH]; [done|]. cbn.
  destruct (decide (x = c)) as [->|Hx].
  - pose proof (split_not_nil c s). cbn.
    destruct (Str.split c s) eqn:Hs; [done|]. by rewrite IH.
  - pose proof (split_not_nil c s).
    destruct (Str.split c s) as [|f [|g fs]] eqn:Hs; [done| |].
    + cbn in *. by rewrite IH.
    + cbn in *. by rewrite <- IH.
Qed.

Lemma rstrip_snoc c s : Str.rstrip c (s ++ [c]) = Str.rstrip c s.
Proof.
  induction s as [|x s IH]; cbn; [by rewrite decide_True|].
  by rewrite IH.
Qed.

Lemma rstrip_id c s : last s ≠ Some c → Str.rstrip c s = s.
Proof.
  induction s as [|x s IH]; [done|]. cbn. intros Hl.
  destruct s as [|y s].
  - cbn. rewrite decide_False; [done|]. by intros ->.
  - rewrite IH by done. done.
Qed.

Lemma lstrip_id c s : head s ≠ Some c → Str.lstrip c s = s.
Proof.
  destruct s as [|x s]; [done|]. cbn. intros Hh.
  rewrite decide_False; [done|]. by intros ->.
Qed.

Lemma slice_under a p f :
  0 ≤ f →
  Str.slice (a ++ p) (Z.of_nat (length a) + f)
    (Z.of_nat (length a) + f + 1) = Str.slice p f (f + 1).
Proof.
  intros Hf. unfold Str.slice, Str.upto, Str.from.
  replace (Z.to_nat (Z.of_nat (length a) + f))
    with (length a + Z.to_nat f)%nat by lia.
  rewrite drop_app_add. f_equal. lia.
Qed.

Lemma splitext_loop_under a p d k f :
  0 ≤ f → 0 ≤ d →
  Path.splitext_loop (a ++ p) (Z.of_nat (length a) + d) k
    (Z.of_nat (length a) + f)
  = (λ r, (a ++ r.1, r.2)) <$> Path.splitext_loop p d k f.
Proof.
  intros Hf Hd. revert f Hf. induction k as [|k IH]; intros f Hf; [done|].
  cbn [Path.splitext_loop]. rewrite slice_under by done.
  destruct (decide (Str.slice p f (f + 1) ≠ [extsep])).
  - cbn. unfold Str.upto, Str.from.
    replace (Z.to_nat (Z.of_nat (length a) + d))
      with (length a + Z.to_nat d)%nat by lia.
    by rewrite take_app_add, drop_app_add.
  - replace (Z.of_nat (length a) + f + 1)
      with (Z.of_nat (length a) + (f + 1)) by lia.
    apply IH. lia.
Qed.

Lemma splitext_loop_found p d k f r :
  Path.splitext_loop p d k f = Some r →
  r = (Str.upto p d, Str.from p d) ∧ (0 < k)%nat.
Proof.
  revert f. induction k as [|k IH]; intros f; [done|]. cbn.
  destruct (decide _).
  - intros [= <-]. split; [done|lia].
  - intros [-> _]%IH. split; [done|lia].
Qed.

(** The extension is looked for in the last name only. *)
Lemma splitext_under a p :
  dir_part a →
  Path.splitext (a ++ p) = (a ++ (Path.splitext p).1, (Path.splitext p).2).
Proof.
  intros [->|Ha]; [cbn [app]; by destruct (Path.splitext p)|].
  unfold Path.splitext. rewrite (rfind_sep_under a p Ha).
  rewrite (rfind_app extsep).
  pose proof (rfind_lower sep p) as Hs.
  pose proof (rfind_lower extsep p) as Hd.
  pose proof (rfind_extsep_under a Ha) as Hda.
  destruct (Z.leb_spec 0 (Str.rfind extsep p)) as [Hd0|Hd0].
  - replace (Z.of_nat (length a) + Str.rfind sep p
             <? Z.of_nat (length a) + Str.rfind extsep p)
      with (Str.rfind sep p <? Str.rfind extsep p) by lia.
    destruct (Str.rfind sep p <? Str.rfind extsep p); [|done].
    replace (Z.of_nat (length a) + Str.rfind extsep p
             - (Z.of_nat (length a) + Str.rfind sep p + 1))
      with (Str.rfind extsep p - (Str.rfind sep p + 1)) by lia.
    replace (Z.of_nat (length a) + Str.rfind sep p + 1)
      with (Z.of_nat (length a) + (Str.rfind sep p + 1)) by lia.
    rewrite splitext_loop_under by lia.
    by destruct (Path.splitext_loop p _ _ _) as [[b x]|].
  - replace (Z.of_nat (length a) + Str.rfind sep p <? Str.rfind extsep a)
      with false by lia.
    replace (Str.rfind sep p <? Str.rfind extsep p) with false by lia.
    done.
Qed.

Lemma splitext_concat p : (Path.splitext p).1 ++ (Path.splitext p).2 = p.
Proof.
  unfold Path.splitext.
  destruct (_ <? _); [|by rewrite app_nil_r].
  destruct (Path.splitext_loop p _ _ _) as [r|] eqn:Hr;
    [|by rewrite app_nil_r].
  apply splitext_loop_found in Hr as [-> _]. apply take_drop.
Qed.

Lemma splitext_base_not_nil p : p ≠ [] → (Path.splitext p).1 ≠ [].
Proof.
  intros Hp. unfold Path.splitext.
  pose proof (rfind_lower sep p) as Hs.
  pose proof (rfind_upper extsep p) as Hd.
  destruct (Z.ltb_spec (Str.rfind sep p) (Str.rfind extsep p)); [|done].
  destruct (Path.splitext_loop p _ _ _) as [r|] eqn:Hr; [|done].
  apply splitext_loop_found in Hr as [-> Hk]. cbn. unfold Str.upto.
  intros Hnil%(f_equal length). rewrite length_take in Hnil.
  cbn in Hnil. lia.
Qed.

(** [os.path.join] of two and of three parts. *)
Lemma join_relative a p :
  head p ≠ Some sep →
  ∃ a', dir_part a' ∧ Path.join a [p] = a' ++ p
        ∧ (a' = a ∨ a' = a ++ [sep]).
Proof.
  intros Hp. unfold Path.join. cbn. unfold Path.join1.
  rewrite startswith_sep, bool_decide_eq_false_2 by done.
  destruct (decide (a = [])) as [->|Ha].
  { exists []. split; [by left|]. split; [done|by left]. }
  rewrite bool_decide_eq_false_2 by done. cbn. unfold Str.endswith.
  destruct (decide (last a = Some sep)) as [Hl|Hl].
  - rewrite bool_decide_eq_true_2 by done. exists a.
    split; [by right|]. split; [done|by left].
  - rewrite bool_decide_eq_false_2 by done. exists (a ++ [sep]).
    split; [right; apply last_snoc|].
    split; [by rewrite <- app_assoc|by right].
Qed.

Lemma nbexports_path_last dir_path :
  last (nbexports_path dir_path) = Some 115%N.
Proof.
  unfold nbexports_path, Path.join. cbn. unfold Path.join1.
  change (Str.startswith (lit ".nbexports") [sep]) with false. cbv iota.
  destruct (_ || _).
  - change (lit ".nbexports") with (lit ".nbexport" ++ [115%N]).
    by rewrite app_assoc, last_snoc.
  - change (lit ".nbexports") with (lit ".nbexport" ++ [115%N]).
    by rewrite !app_assoc, last_snoc.
Qed.

Lemma join_nbexports dir_path q :
  head q ≠ Some sep →
  Path.join dir_path [lit ".nbexports"; q]
  = nbexports_path dir_path ++ sep :: q.
Proof.
  intros Hq.
  change (Path.join dir_path [lit ".nbexports"; q])
    with (Path.join1 (nbexports_path dir_path) q).
  unfold Path.join1.
  rewrite startswith_sep, bool_decide_eq_false_2 by done.
  pose proof (nbexports_path_last dir_path) as Hl.
  rewrite bool_decide_eq_false_2 by (by intros Hn; rewrite Hn in Hl).
  unfold Str.endswith. rewrite Hl. by rewrite bool_decide_eq_false_2.
Qed.

(** API paths and [to_api_path]. *)
Lemma api_path_head q : api_path q → head q ≠ Some sep.
Proof.
  unfold api_path. destruct q as [|x q]; [done|]. cbn. intros Hq [= ->].
  rewrite decide_True in Hq by done. by apply Forall_cons in Hq as [? _].
Qed.

Lemma api_path_last q : api_path q → last q ≠ Some sep.
Proof.
  unfold api_path. intros Hq [q' ->]%last_Some.
  rewrite split_app in Hq. apply Forall_app in Hq as [_ Hq].
  cbn in Hq. by apply Forall_cons in Hq as [? _].
Qed.

Lemma to_api_path_under root a q :
  a = [] ∨ a = [sep] → api_path q → to_api_path (root ++ a ++ q) root = q.
Proof.
  intros Ha Hq. unfold to_api_path.
  rewrite startswith_app, from_app_length. unfold Str.strip.
  assert (Str.lstrip sep (a ++ q) = q) as ->.
  { pose proof (lstrip_id sep q (api_path_head q Hq)) as Hl.
    destruct Ha as [->| ->]; [done|]. cbn. by rewrite decide_True. }
  rewrite rstrip_id by (by apply api_path_last).
  rewrite filter_all by exact Hq.
  apply (join_split sep).
Qed.

(** Changing the extension of an API path gives an API path. *)
Lemma api_path_splitext p e :
  api_path p → sep ∉ e → api_path ((Path.splitext p).1 ++ e).
Proof.
  intros Hp He.
  destruct (dir_part_name p) as (Ha & Ht & Hpe).
  set (a := Str.upto p (Str.rfind sep p + 1)) in *.
  set (t := Str.from p (Str.rfind sep p + 1)) in *.
  clearbody a t. subst p. rewrite splitext_under by done. cbn [fst].
  pose proof (splitext_concat t) as Hte.
  assert (Hb : sep ∉ (Path.splitext t).1 ++ e).
  { rewrite not_elem_of_app. split; [|done]. intros Hin. apply Ht.
    rewrite <- Hte. apply elem_of_app. by left. }
  unfold api_path in *.
  destruct Ha as [->|[a' ->]%last_Some].
  - cbn in *. rewrite (split_sep_free _ _ Hb).
    rewrite (split_sep_free _ _ Ht) in Hp.
    apply Forall_cons in Hp as [Hne _]. apply Forall_singleton.
    pose proof (splitext_base_not_nil t Hne).
    by destruct (Path.splitext t).1.
  - rewrite <- !app_assoc in *. cbn [app] in *.
    rewrite split_app in *. rewrite (split_sep_free _ _ Hb).
    rewrite (split_sep_free _ _ Ht) in Hp.
    apply Forall_app in Hp as [Hp Hne]. apply Forall_app. split; [done|].
    rewrite Forall_singleton in Hne. apply Forall_singleton.
    pose proof (splitext_base_not_nil t Hne).
    by destruct (Path.splitext t).1.
Qed.

(** Where the export of the notebook at [p] under [root] goes. *)
Lemma export_target_mirrors dir_path root p e :
  api_path p → sep ∉ e →
  export_target dir_path root (Path.join root [p]) e
  = nbexports_path dir_path ++ sep :: (Path.splitext p).1 ++ e.
Proof.
  intros Hp He. unfold export_target.
  destruct (join_relative root p (api_path_head p Hp))
    as (a & Ha & -> & Hroot).
  rewrite splitext_under by done. cbn [fst].
  pose proof (api_path_splitext p e Hp He) as Hq.
  assert (to_api_path ((a ++ (Path.splitext p).1) ++ e) root
          = (Path.splitext p).1 ++ e) as ->.
  { destruct Hroot as [->| ->].
    - rewrite <- app_assoc.
      apply (to_api_path_under root [] _ (or_introl eq_refl) Hq).
    - rewrite <- !app_assoc.
      apply (to_api_path_under root [sep] _ (or_intror eq_refl) Hq). }
  apply join_nbexports. by apply api_path_head.
Qed.

End StrFacts.

(** ** The directory tree *)

Section FSFacts.

Implicit Types (fs : FS.t) (cur k : list pystr) (c : pystr)
  (cs : list pystr) (p d : pystr).

Lemma components_nil : FS.components [] = [].
Proof. done. Qed.

Lemma components_sep_free t : sep ∉ t → t ≠ [] → FS.components t = [t].
Proof.
  intros Ht Hne. unfold FS.components. rewrite split_sep_free by done.
  by rewrite filter_cons_True.
Qed.

Lemma components_name t :
  sep ∉ t → FS.components t = if decide (t = []) then [] else [t].
Proof.
  intros Ht. destruct (decide (t = [])) as [->|Hne]; [done|].
  by apply components_sep_free.
Qed.

Lemma components_app s t :
  FS.components (s ++ sep :: t) = FS.components s ++ FS.components t.
Proof. unfold FS.components. by rewrite split_app, filter_app. Qed.

Lemma components_snoc_sep s : FS.components (s ++ [sep]) = FS.components s.
Proof. by rewrite components_app, components_nil, app_nil_r. Qed.

Lemma components_seps n : FS.components (Str.times sep n) = [].
Proof.
  induction n as [|n IH]; [done|]. unfold Str.times in *. cbn [replicate].
  change (sep :: replicate n sep) with ([] ++ sep :: replicate n sep).
  by rewrite components_app, IH.
Qed.

Lemma rstrip_times (c : char) (s : pystr) :
  ∃ n, s = Str.rstrip c s ++ Str.times c n.
Proof.
  induction s as [|x s [n IH]]; [by exists 0%nat|]. cbn.
  destruct (Str.rstrip c s) as [|y r] eqn:Hr.
  - destruct (decide (x = c)) as [->|Hx].
    + exists (S n). cbn in *. by rewrite IH at 1.
    + exists n. cbn in *. by rewrite IH at 1.
  - exists n. cbn in *. by rewrite IH at 1.
Qed.

Lemma components_app_seps (r : pystr) n :
  FS.components (r ++ Str.times sep n) = FS.components r.
Proof.
  revert r. induction n as [|n IH]; intros r; [by rewrite app_nil_r|].
  unfold Str.times in *. cbn [replicate].
  change (r ++ sep :: replicate n sep) with (r ++ [sep] ++ replicate n sep).
  by rewrite app_assoc, IH, components_snoc_sep.
Qed.

Lemma components_rstrip (s : pystr) :
  FS.components (Str.rstrip sep s) = FS.components s.
Proof.
  destruct (rstrip_times sep s) as [n Hn]. rewrite Hn at 2.
  by rewrite components_app_seps.
Qed.

Lemma rstrip_last (c : char) (s : pystr) : last (Str.rstrip c s) ≠ Some c.
Proof.
  induction s as [|x s IH]; [done|]. cbn.
  destruct (Str.rstrip c s) as [|y r] eqn:Hr.
  - destruct (decide (x = c)); [done|]. cbn. by intros [= ->].
  - by rewrite last_cons_cons.
Qed.

Lemma rstrip_head (c : char) (s : pystr) :
  Str.rstrip c s ≠ [] → head (Str.rstrip c s) = head s.
Proof.
  destruct s as [|x s]; [done|]. cbn.
  destruct (Str.rstrip c s); [|done]. by destruct (decide (x = c)).
Qed.

Lemma rstrip_length (c : char) (s : pystr) : (length (Str.rstrip c s) ≤ length s)%nat.
Proof.
  destruct (rstrip_times c s) as [n Hn]. rewrite Hn at 2.
  rewrite length_app. lia.
Qed.

Lemma rstrip_nil (c : char) (s : pystr) :
  Str.rstrip c s = [] → s = Str.times c (length s).
Proof.
  induction s as [|x s IH]; [done|]. cbn.
  destruct (Str.rstrip c s) eqn:Hr; [|done].
  destruct (decide (x = c)) as [->|]; [|done].
  intros _. unfold Str.times in *. cbn. by rewrite <- IH.
Qed.

Lemma dirname_split p : Path.dirname p = (Path.split p).1.
Proof. done. Qed.

(** What [os.path.split] returns, in terms of the names of the path. *)
Lemma split_spec p h t :
  Path.split p = (h, t) →
  (sep ∉ t)
  ∧ FS.components p = FS.components h ++ FS.components t
  ∧ (h ≠ [] → Path.isabs h = Path.isabs p)
  ∧ (length h + length t ≤ length p)%nat
  ∧ (last h = Some sep → FS.components h = [])
  ∧ (t = [] → dir_part p).
Proof.
  unfold Path.split.
  destruct (dir_part_name p) as (Ha & Ht & Hp). cbv zeta in *.
  set (a := Str.upto p (Str.rfind sep p + 1)) in *.
  set (t' := Str.from p (Str.rfind sep p + 1)) in *.
  clearbody a t'. intros [= <- <-].
  assert (Hca : FS.components p = FS.components a ++ FS.components t').
  { rewrite Hp at 1. destruct Ha as [->|[a' ->]%last_Some]; [done|].
    rewrite <- app_assoc. cbn [app].
    by rewrite components_app, components_snoc_sep. }
  assert (Hlen : length p = (length a + length t')%nat).
  { rewrite Hp at 1. by rewrite length_app. }
  assert (Hhead : a ≠ [] → head a = head p).
  { rewrite Hp. by destruct a. }
  split; [done|].
  destruct (bool_decide (a ≠ []) && bool_decide (a ≠ Str.times sep (length a)))
    eqn:Hb.
  - apply andb_true_iff in Hb as [Hne%bool_decide_eq_true Hns%bool_decide_eq_true].
    split; [by rewrite components_rstrip|].
    split; [|split; [|split]].
    + intros Hr. unfold Path.isabs. rewrite !startswith_sep.
      by rewrite rstrip_head, Hhead.
    + pose proof (rstrip_length sep a). lia.
    + intros Hl. by apply rstrip_last in Hl.
    + intros ->. rewrite Hp, app_nil_r. exact Ha.
  - split; [done|]. split; [|split; [|split]].
    + intros Hne. unfold Path.isabs. rewrite !startswith_sep.
      by rewrite Hhead.
    + lia.
    + intros Hl. apply andb_false_iff in Hb as [Hb|Hb].
      * apply bool_decide_eq_false in Hb. apply dec_stable in Hb.
        by rewrite Hb in Hl.
      * apply bool_decide_eq_false in Hb. apply dec_stable in Hb.
        rewrite Hb. apply components_seps.
    + intros ->. rewrite Hp, app_nil_r. exact Ha.
Qed.

(** The head and tail [os.makedirs] works with. *)
Lemma makedirs_split_spec name head tail :
  (let '(h, t) := Path.split name in
   if decide (t = []) then Path.split h else (h, t)) = (head, tail) →
  (sep ∉ tail)
  ∧ FS.components name = FS.components head ++ FS.components tail
  ∧ (head ≠ [] → Path.isabs head = Path.isabs name)
  ∧ (tail ≠ [] → (length head < length name)%nat)
  ∧ (last head = Some sep → FS.components head = [])
  ∧ (tail = [] → FS.components name = []).
Proof.
  destruct (Path.split name) as [h t] eqn:Hs.
  destruct (split_spec _ _ _ Hs) as (Ht & Hc & Habs & Hlen & Hl & Hd).
  destruct (decide (t = [])) as [->|Hne].
  - intros Hs2.
    destruct (split_spec _ _ _ Hs2) as (Ht2 & Hc2 & Habs2 & Hlen2 & Hl2 & Hd2).
    rewrite components_nil, app_nil_r in Hc.
    split; [done|]. split; [by rewrite Hc|].
    split; [|split; [|split]]; [| |done|].
    + intros Hne. rewrite (Habs2 Hne). apply Habs. intros ->.
      cbn in Hlen2. destruct head; [done|cbn in Hlen2; lia].
    + intros Hne. destruct tail; [done|]. cbn in Hlen2. lia.
    + intros Htl. rewrite Hc. destruct (Hd2 Htl) as [->|Hlast]; [done|].
      by apply Hl.
  - intros [= <- <-]. split; [done|]. split; [done|].
    split; [done|]. split; [|split]; [|done|done].
    intros _. destruct t; [done|]. cbn in Hlen. lia.
Qed.

(** Walking the tree. *)
Lemma step_inr fs cur c k :
  FS.step fs cur c = inr k ↔
  FS.lookup fs cur = Some Dir
  ∧ k = (if decide (c = FS.curdir) then cur
         else if decide (c = FS.pardir) then removelast cur
         else cur ++ [c]).
Proof.
  unfold FS.step. destruct (FS.lookup fs cur) as [[b|]|].
  - split; [done|by intros [[=] _]].
  - repeat case_decide;
      (split; [by intros [= <-]|by intros [_ ->]]).
  - split; [done|by intros [[=] _]].
Qed.

Lemma walk_app fs cur cs1 cs2 :
  FS.walk fs cur (cs1 ++ cs2) =
    match FS.walk fs cur cs1 with
    | inl e => inl e
    | inr k => FS.walk fs k cs2
    end.
Proof.
  revert cur. induction cs1 as [|c cs1 IH]; intros cur; [done|]. cbn.
  destruct (FS.step fs cur c); [done|]. apply IH.
Qed.

Lemma walk_mono fs fs' cur cs k :
  dirs_kept fs fs' → FS.walk fs cur cs = inr k → FS.walk fs' cur cs = inr k.
Proof.
  intros [_ Hk]. revert cur. induction cs as [|c cs IH]; intros cur; [done|].
  cbn. destruct (FS.step fs cur c) as [e|k1] eqn:Hs; [done|].
  apply step_inr in Hs as [Hd ->]. intros Hw.
  assert (FS.step fs' cur c = inr
            (if decide (c = FS.curdir) then cur
             else if decide (c = FS.pardir) then removelast cur
             else cur ++ [c])) as ->.
  { apply step_inr. split; [by apply Hk|done]. }
  by apply IH.
Qed.

Lemma dirs_kept_refl fs : dirs_kept fs fs.
Proof. by split. Qed.

Lemma dirs_kept_trans fs1 fs2 fs3 :
  dirs_kept fs1 fs2 → dirs_kept fs2 fs3 → dirs_kept fs1 fs3.
Proof. intros [Hc1 H1] [Hc2 H2]. split; [congruence|auto]. Qed.

Lemma start_cwd fs fs' p : FS.cwd fs' = FS.cwd fs → FS.start fs' p = FS.start fs p.
Proof. unfold FS.start. by intros ->. Qed.

Lemma resolve_mono fs fs' p k :
  dirs_kept fs fs' → FS.resolve fs p = inr k → FS.resolve fs' p = inr k.
Proof.
  intros Hk. unfold FS.resolve. destruct (decide (p = [])); [done|].
  rewrite (start_cwd fs fs') by apply Hk. by apply walk_mono.
Qed.

Lemma isdir_mono fs fs' p :
  dirs_kept fs fs' → FS.isdir fs p = true → FS.isdir fs' p = true.
Proof.
  intros Hk. unfold FS.isdir, FS.stat.
  destruct (FS.resolve fs p) as [e|k] eqn:Hr; [done|].
  rewrite (resolve_mono _ _ _ _ Hk Hr).
  destruct (FS.lookup fs k) as [[b|]|] eqn:Hl; [done| |done].
  by rewrite (proj2 Hk _ Hl).
Qed.

Lemma lookup_nodes fs k : k ≠ [] → FS.lookup fs k = FS.nodes fs !! k.
Proof. by destruct k. Qed.

Lemma walk_names fs cur cs (b : bool) k :
  FS.walk fs cur (cs ++ (if b then [FS.curdir] else [])) = inr k ↔
  FS.walk fs cur cs = inr k ∧ (b = true → FS.lookup fs k = Some Dir).
Proof.
  rewrite walk_app. destruct (FS.walk fs cur cs) as [e|k1].
  { split; [done|by intros [[=] _]]. }
  destruct b; cbn.
  - destruct (FS.step fs k1 FS.curdir) as [e|k2] eqn:Hs.
    + split; [done|]. intros [[= ->] Hd].
      assert (FS.step fs k FS.curdir = inr k) as Hk
        by (apply step_inr; by rewrite decide_True; auto).
      congruence.
    + apply step_inr in Hs as [Hd ->]. rewrite decide_True by done.
      split; [by intros [= <-]|by intros [[= <-] _]].
  - split; [by intros [= <-]|by intros [[= <-] _]].
Qed.

Lemma resolve_inr fs p k :
  FS.resolve fs p = inr k ↔
  p ≠ []
  ∧ FS.walk fs (FS.start fs p) (FS.components p) = inr k
  ∧ (Str.endswith p sep = true → FS.lookup fs k = Some Dir).
Proof.
  unfold FS.resolve, FS.names. destruct (decide (p = [])) as [->|Hp].
  { split; [done|by intros [? _]]. }
  rewrite walk_names. split; [by intros [??]|by intros (_ & ? & ?)].
Qed.

Lemma isdir_inv fs p :
  FS.isdir fs p = true →
  ∃ k, p ≠ [] ∧ FS.walk fs (FS.start fs p) (FS.components p) = inr k
       ∧ FS.lookup fs k = Some Dir.
Proof.
  unfold FS.isdir, FS.stat.
  destruct (FS.resolve fs p) as [e|k] eqn:Hr; [done|].
  apply resolve_inr in Hr as (Hp & Hw & _).
  destruct (FS.lookup fs k) as [[b|]|] eqn:Hl; [done| |done].
  intros _. by exists k.
Qed.

Lemma isdir_intro fs p k :
  p ≠ [] → FS.walk fs (FS.start fs p) (FS.components p) = inr k →
  FS.lookup fs k = Some Dir → FS.isdir fs p = true.
Proof.
  intros Hp Hw Hl. unfold FS.isdir, FS.stat.
  assert (FS.resolve fs p = inr k) as -> by (by apply resolve_inr).
  by rewrite Hl.
Qed.

Lemma exists_intro fs p k :
  p ≠ [] → FS.walk fs (FS.start fs p) (FS.components p) = inr k →
  FS.lookup fs k = Some Dir → FS.exists_ fs p = true.
Proof.
  intros Hp Hw Hl. unfold FS.exists_, FS.stat.
  assert (FS.resolve fs p = inr k) as -> by (by apply resolve_inr).
  by rewrite Hl.
Qed.

(** A directory that is there already. *)
Lemma mkdir_or_exists_existing fs name :
  FS.isdir fs name = true → mkdir_or_exists name true fs = (inr (), fs).
Proof.
  intros Hd. unfold mkdir_or_exists, FS.mkdir.
  destruct (isdir_inv _ _ Hd) as (k & Hp & Hw & Hl).
  rewrite decide_False by done. by rewrite Hw, Hl, Hd.
Qed.

Lemma makedirs_existing fs name :
  FS.isdir fs name = true → makedirs name true fs = (inr (), fs).
Proof.
  intros Hd. unfold makedirs. cbn [makedirs_rec]. unfold makedirs_body.
  destruct (isdir_inv _ _ Hd) as (k & Hp & Hw & Hl).
  destruct (let '(h, t) := Path.split name in
            if decide (t = []) then Path.split h else (h, t))
    as [head tail] eqn:Hs.
  destruct (makedirs_split_spec _ _ _ Hs)
    as (Ht & Hc & Habs & Hlen & Hlast & Hnil).
  assert (Path.split name = ((Path.split name).1, (Path.split name).2)) as Hsp
    by (by destruct (Path.split name)).
  rewrite Hsp in Hs |- *. rewrite Hs.
  destruct (bool_decide (head ≠ []) && bool_decide (tail ≠ [])
            && negb (FS.exists_ fs head)) eqn:Hcond;
    [|by apply mkdir_or_exists_existing].
  apply andb_true_iff in Hcond as [Hcond Hex].
  apply andb_true_iff in Hcond
    as [Hh%bool_decide_eq_true Htl%bool_decide_eq_true].
  rewrite (components_sep_free tail) in Hc by done.
  rewrite Hc, walk_app in Hw.
  destruct (FS.walk fs (FS.start fs name) (FS.components head))
    as [e|k1] eqn:Hw1; [done|].
  cbn in Hw. destruct (FS.step fs k1 tail) as [e|k2] eqn:Hst; [done|].
  apply step_inr in Hst as [Hk1 _].
  assert (FS.exists_ fs head = true) as Hex'.
  { apply (exists_intro _ _ k1); [done| |done].
    unfold FS.start. rewrite (Habs Hh). exact Hw1. }
  by rewrite Hex' in Hex.
Qed.

(** Chains of keys. *)
Lemma chain_snoc cur cs c :
  chain cur (cs ++ [c]) = chain cur cs ++ [cur ++ cs ++ [c]].
Proof.
  revert cur. induction cs as [|c0 cs IH]; intros cur; [done|].
  cbn. by rewrite IH, <- !app_assoc.
Qed.

Lemma chain_length cur cs k :
  k ∈ chain cur cs →
  (length cur < length k ≤ length cur + length cs)%nat.
Proof.
  revert cur. induction cs as [|c cs IH]; intros cur.
  { by intros ?%elem_of_nil. }
  cbn. intros [->|Hin%IH]%elem_of_cons.
  - rewrite length_app. cbn. lia.
  - rewrite length_app in Hin. cbn in Hin. lia.
Qed.

Lemma chain_not_nil cur cs k : k ∈ chain cur cs → k ≠ [].
Proof. intros Hin%chain_length ->. cbn in Hin. lia. Qed.

Lemma chain_end cur cs : cur ++ cs ∈ cur :: chain cur cs.
Proof.
  revert cur. induction cs as [|c cs IH]; intros cur.
  { rewrite app_nil_r. apply list_elem_of_here. }
  cbn. apply list_elem_of_further.
  replace (cur ++ c :: cs) with ((cur ++ [c]) ++ cs)
    by (by rewrite <- app_assoc).
  apply IH.
Qed.

(** Walking along names that are entries' own. *)
Lemma walk_regular fs cur cs k :
  Forall regular cs → FS.walk fs cur cs = inr k → k = cur ++ cs.
Proof.
  intros Hreg. revert cur.
  induction Hreg as [|c cs [Hc1 Hc2] _ IH]; intros cur.
  { cbn. intros [= <-]. by rewrite app_nil_r. }
  cbn. destruct (FS.step fs cur c) as [e|k1] eqn:Hs; [done|].
  apply step_inr in Hs as [_ ->]. rewrite !decide_False by done.
  intros ->%IH. by rewrite <- app_assoc.
Qed.

Lemma walk_chain fs cur cs :
  Forall regular cs → FS.lookup fs cur = Some Dir →
  Forall (λ k, FS.lookup fs k = Some Dir) (chain cur cs) →
  FS.walk fs cur cs = inr (cur ++ cs)
  ∧ FS.lookup fs (cur ++ cs) = Some Dir.
Proof.
  intros Hreg. revert cur.
  induction Hreg as [|c cs [Hc1 Hc2] _ IH]; intros cur Hcur Hch.
  { by rewrite app_nil_r. }
  cbn in Hch. apply Forall_cons in Hch as [Hk Hch].
  cbn. assert (FS.step fs cur c = inr (cur ++ [c])) as ->.
  { apply step_inr. by rewrite !decide_False. }
  replace (cur ++ c :: cs) with ((cur ++ [c]) ++ cs)
    by (by rewrite <- app_assoc).
  by apply IH.
Qed.

Lemma walk_chain_inv fs cur cs c k :
  Forall regular cs → FS.walk fs cur (cs ++ [c]) = inr k →
  FS.lookup fs cur = Some Dir
  ∧ Forall (λ k, FS.lookup fs k = Some Dir) (chain cur cs).
Proof.
  intros Hreg. revert cur.
  induction Hreg as [|c0 cs [Hc1 Hc2] _ IH]; intros cur.
  { cbn. destruct (FS.step fs cur c) as [e|k1] eqn:Hs; [done|].
    apply step_inr in Hs as [Hd _]. done. }
  cbn. destruct (FS.step fs cur c0) as [e|k1] eqn:Hs; [done|].
  apply step_inr in Hs as [Hd ->]. rewrite !decide_False by done.
  intros [Hk Hch]%IH. split; [done|]. by apply Forall_cons.
Qed.

(** Trees with directories added. *)
Lemma add_dirs_cwd keys fs : FS.cwd (add_dirs keys fs) = FS.cwd fs.
Proof. done. Qed.

Lemma add_dirs_snoc keys k fs :
  add_dirs (keys ++ [k]) fs =
    FS.mk (<[k := Dir]> (FS.nodes (add_dirs keys fs))) (FS.cwd fs).
Proof. unfold add_dirs. by rewrite foldl_app. Qed.

Lemma add_dirs_nodes keys fs k :
  FS.nodes (add_dirs keys fs) !! k =
    if decide (k ∈ keys) then Some Dir else FS.nodes fs !! k.
Proof.
  induction keys as [|k0 keys IH] using rev_ind.
  { destruct fs. cbn. by rewrite decide_False by apply not_elem_of_nil. }
  rewrite add_dirs_snoc. cbn [FS.nodes].
  destruct (decide (k = k0)) as [->|Hne].
  - rewrite lookup_insert_eq. rewrite decide_True; [done|].
    apply elem_of_app. right. apply list_elem_of_here.
  - rewrite lookup_insert_ne by done. rewrite IH.
    destruct (decide (k ∈ keys)) as [Hin|Hin].
    + rewrite decide_True; [done|]. apply elem_of_app. by left.
    + rewrite decide_False; [done|].
      rewrite elem_of_app, list_elem_of_singleton. tauto.
Qed.

Lemma add_dirs_id keys fs :
  Forall (λ k, FS.nodes fs !! k = Some Dir) keys → add_dirs keys fs = fs.
Proof.
  intros Hk. destruct fs as [m cwd]. unfold add_dirs. cbn in *. f_equal.
  apply map_eq. intros k.
  pose proof (add_dirs_nodes keys (FS.mk m cwd) k) as Hn.
  unfold add_dirs in Hn. cbn in Hn. rewrite Hn.
  destruct (decide (k ∈ keys)) as [Hin|]; [|done].
  symmetry. by apply (proj1 (Forall_forall _ _) Hk).
Qed.

Lemma add_dirs_lookup keys fs k :
  Forall (λ k, k ≠ []) keys →
  FS.lookup (add_dirs keys fs) k =
    if decide (k ∈ keys) then Some Dir else FS.lookup fs k.
Proof.
  intros Hne. destruct k as [|c k].
  { cbn. rewrite decide_False; [done|]. intros Hin.
    by apply (proj1 (Forall_forall _ _) Hne) in Hin. }
  cbn [FS.lookup]. apply add_dirs_nodes.
Qed.

Lemma add_dirs_kept keys fs :
  Forall (λ k, k ≠ []) keys → dirs_kept fs (add_dirs keys fs).
Proof.
  intros Hne. split; [done|]. intros k Hk.
  rewrite add_dirs_lookup by done. by destruct (decide (k ∈ keys)).
Qed.

Lemma chain_keys_not_nil cur cs : Forall (λ k, k ≠ []) (chain cur cs).
Proof. apply Forall_forall. intros k. apply chain_not_nil. Qed.

Lemma is_file_false_lookup fs k :
  is_file (FS.lookup fs k) = false →
  FS.lookup fs k = None ∨ FS.lookup fs k = Some Dir.
Proof. destruct (FS.lookup fs k) as [[b|]|]; auto. done. Qed.

(** The last [mkdir] of [os.makedirs], all directories above being there. *)
Lemma mkdir_or_exists_last fs name cs0 tail :
  name ≠ [] → FS.components name = cs0 ++ [tail] →
  Forall regular (cs0 ++ [tail]) →
  FS.lookup fs (FS.start fs name) = Some Dir →
  Forall (λ k, FS.lookup fs k = Some Dir) (chain (FS.start fs name) cs0) →
  is_file (FS.lookup fs (FS.start fs name ++ cs0 ++ [tail])) = false →
  mkdir_or_exists name true fs =
    (inr (),
     FS.mk (<[FS.start fs name ++ cs0 ++ [tail] := Dir]> (FS.nodes fs))
       (FS.cwd fs)).
Proof.
  intros Hname Hc Hreg Hst Hch Hfile.
  set (key := FS.start fs name ++ cs0 ++ [tail]) in *.
  assert (Hkey : key ≠ []).
  { unfold key. intros Hnil%(f_equal length).
    rewrite !length_app in Hnil. cbn in Hnil. lia. }
  apply Forall_app in Hreg as [Hreg0 Htail].
  assert (Hw : FS.walk fs (FS.start fs name) (cs0 ++ [tail]) = inr key).
  { rewrite walk_app.
    destruct (walk_chain fs _ cs0 Hreg0 Hst Hch) as [-> Hk]. cbn.
    assert (FS.step fs (FS.start fs name ++ cs0) tail
            = inr ((FS.start fs name ++ cs0) ++ [tail])) as ->.
    { apply step_inr. rewrite Forall_singleton in Htail.
      destruct Htail. by rewrite !decide_False. }
    unfold key. by rewrite <- app_assoc. }
  unfold mkdir_or_exists, FS.mkdir. rewrite decide_False by done.
  rewrite Hc, Hw.
  destruct (is_file_false_lookup _ _ Hfile) as [Hl|Hl]; rewrite Hl; [done|].
  assert (FS.isdir fs name = true) as ->.
  { apply (isdir_intro _ _ key); [done|by rewrite Hc|done]. }
  cbn. f_equal. destruct fs as [m cwd]. cbn in *. f_equal.
  rewrite lookup_nodes in Hl by done. cbn in Hl.
  by rewrite insert_id.
Qed.

(** [os.makedirs] makes the directories that are missing on a clear way. *)
Lemma makedirs_rec_creates n : ∀ name fs,
  (length name < n)%nat → way_clear fs name →
  makedirs_rec n name true fs =
    (inr (), add_dirs (chain (FS.start fs name) (FS.components name)) fs).
Proof.
  induction n as [|n IH]; intros name fs Hn (Hname & Hreg & Hst & Hfile);
    [lia|].
  cbn [makedirs_rec]. unfold makedirs_body.
  destruct (let '(h, t) := Path.split name in
            if decide (t = []) then Path.split h else (h, t))
    as [head tail] eqn:Hs.
  destruct (makedirs_split_spec _ _ _ Hs)
    as (Ht & Hc & Habs & Hlen & Hlast & Hnil).
  assert (Path.split name = ((Path.split name).1, (Path.split name).2)) as Hsp
    by (by destruct (Path.split name)).
  rewrite Hsp in Hs |- *. rewrite Hs. clear Hsp Hs.
  destruct (decide (tail = [])) as [->|Htl].
  { (* nothing but separators *)
    rewrite (Hnil eq_refl) in *. cbn [chain].
    rewrite (bool_decide_eq_false_2 (@nil N ≠ []))
      by (by intros H; apply H).
    rewrite andb_false_r. cbn [andb].
    rewrite mkdir_or_exists_existing.
    - f_equal. by destruct fs.
    - apply (isdir_intro _ _ (FS.start fs name));
        [done|by rewrite (Hnil eq_refl)|done]. }
  rewrite (components_sep_free tail) in Hc by done.
  set (cs0 := FS.components head) in *. rewrite Hc in *.
  rewrite chain_snoc in *.
  apply Forall_app in Hfile as [Hfile0 Hkey].
  rewrite Forall_singleton in Hkey.
  pose proof Hreg as [Hreg0 Hregt]%Forall_app.
  rewrite Forall_singleton in Hregt.
  destruct (bool_decide (head ≠ []) && bool_decide (tail ≠ [])
            && negb (FS.exists_ fs head)) eqn:Hcond.
  - (* the head is missing: it is made first *)
    apply andb_true_iff in Hcond as [Hcond _].
    apply andb_true_iff in Hcond as [Hh%bool_decide_eq_true _].
    assert (Hsth : FS.start fs head = FS.start fs name).
    { unfold FS.start. by rewrite (Habs Hh). }
    rewrite (IH head fs); [|specialize (Hlen Htl); lia|].
    2:{ split; [done|]. rewrite Hsth. fold cs0. done. }
    rewrite Hsth. fold cs0.
    rewrite decide_False by apply Hregt.
    set (fs1 := add_dirs (chain (FS.start fs name) cs0) fs).
    pose proof (add_dirs_kept (chain (FS.start fs name) cs0) fs
                  (chain_keys_not_nil _ _)) as Hkept.
    fold fs1 in Hkept.
    assert (Hst1 : FS.start fs1 name = FS.start fs name) by done.
    rewrite (mkdir_or_exists_last fs1 name cs0 tail); rewrite ?Hst1.
    + by rewrite add_dirs_snoc.
    + done.
    + done.
    + done.
    + by apply Hkept.
    + apply Forall_forall. intros k Hk. unfold fs1.
      rewrite add_dirs_lookup by apply chain_keys_not_nil.
      by rewrite decide_True.
    + unfold fs1. rewrite add_dirs_lookup by apply chain_keys_not_nil.
      rewrite decide_False; [done|]. intros Hin%chain_length.
      rewrite !length_app in Hin. cbn in Hin. lia.
  - (* the head is there, or the path has one name *)
    assert (Hch : Forall (λ k, FS.lookup fs k = Some Dir)
                    (chain (FS.start fs name) cs0)).
    { destruct (decide (head = [])) as [Hh|Hh].
      { unfold cs0. rewrite Hh. cbn. constructor. }
      rewrite bool_decide_eq_true_2 in Hcond by done.
      rewrite bool_decide_eq_true_2 in Hcond by done.
      cbn in Hcond. apply negb_false_iff in Hcond.
      unfold FS.exists_, FS.stat in Hcond.
      destruct (FS.resolve fs head) as [e|k] eqn:Hr; [done|].
      apply resolve_inr in Hr as (_ & Hw & _).
      unfold FS.start in Hw. rewrite (Habs Hh) in Hw.
      fold (FS.start fs name) in Hw. fold cs0 in Hw.
      pose proof (walk_regular _ _ _ _ Hreg0 Hw) as ->.
      destruct (FS.lookup fs (FS.start fs name ++ cs0)) as [nd|] eqn:Hl;
        [|done].
      assert (Hd : FS.lookup fs (FS.start fs name ++ cs0) = Some Dir).
      { pose proof (chain_end (FS.start fs name) cs0) as Hin.
        apply elem_of_cons in Hin as [Heq|Hin].
        - by rewrite Heq.
        - apply (proj1 (Forall_forall _ _) Hfile0) in Hin.
          rewrite Hl in Hin. by destruct nd. }
      assert (Hw' : FS.walk fs (FS.start fs name) (cs0 ++ [FS.curdir])
                    = inr (FS.start fs name ++ cs0)).
      { rewrite walk_app, Hw. cbn.
        assert (FS.step fs (FS.start fs name ++ cs0) FS.curdir
                = inr (FS.start fs name ++ cs0)) as ->; [|done].
        apply step_inr. by rewrite decide_True. }
      by apply walk_chain_inv in Hw' as [_ ?]. }
    rewrite (mkdir_or_exists_last fs name cs0 tail) by done.
    rewrite add_dirs_snoc. f_equal. f_equal.
    rewrite add_dirs_id; [done|].
    apply Forall_forall. intros k Hk.
    rewrite <- lookup_nodes by (by apply chain_not_nil in Hk).
    by apply (proj1 (Forall_forall _ _) Hch).
Qed.

(** The bound on the depth of [os.makedirs] is never reached. *)
Lemma makedirs_body_ext (f g : pystr → bool → M FS.t unit) name exist_ok fs :
  (∀ head fs', (length head < length name)%nat →
               f head exist_ok fs' = g head exist_ok fs') →
  makedirs_body f name exist_ok fs = makedirs_body g name exist_ok fs.
Proof.
  intros Hfg. unfold makedirs_body.
  destruct (let '(h, t) := Path.split name in
            if decide (t = []) then Path.split h else (h, t))
    as [head tail] eqn:Hs.
  destruct (makedirs_split_spec _ _ _ Hs) as (_ & _ & _ & Hlen & _ & _).
  assert (Path.split name = ((Path.split name).1, (Path.split name).2)) as Hsp
    by (by destruct (Path.split name)).
  rewrite Hsp in Hs |- *. rewrite Hs.
  destruct (bool_decide (head ≠ []) && bool_decide (tail ≠ [])
            && negb (FS.exists_ fs head)) eqn:Hcond; [|done].
  apply andb_true_iff in Hcond as [Hcond _].
  apply andb_true_iff in Hcond as [_ Htl%bool_decide_eq_true].
  by rewrite (Hfg head fs (Hlen Htl)).
Qed.

Lemma makedirs_rec_depths n : ∀ m name exist_ok fs,
  (length name < n)%nat → (length name < m)%nat →
  makedirs_rec n name exist_ok fs = makedirs_rec m name exist_ok fs.
Proof.
  induction n as [|n IH]; intros m name exist_ok fs Hn Hm; [lia|].
  destruct m as [|m]; [lia|]. cbn [makedirs_rec].
  apply makedirs_body_ext. intros head fs' Hlen. apply IH; lia.
Qed.

Lemma makedirs_depth n name exist_ok fs :
  (length name < n)%nat →
  makedirs_rec n name exist_ok fs = makedirs name exist_ok fs.
Proof. intros Hn. unfold makedirs. apply makedirs_rec_depths; lia. Qed.

Lemma mkdir_or_exists_raises name exist_ok fs e fs' :
  mkdir_or_exists name exist_ok fs = (inl e, fs') → ∃ en, e = OSError en.
Proof.
  unfold mkdir_or_exists. destruct (FS.mkdir fs name) as [en|fs1]; [|done].
  destruct (_ || _); [|done]. intros [= <- _]. by exists en.
Qed.

Lemma makedirs_rec_raises n : ∀ name exist_ok fs e fs',
  (length name < n)%nat →
  makedirs_rec n name exist_ok fs = (inl e, fs') → ∃ en, e = OSError en.
Proof.
  induction n as [|n IH]; intros name exist_ok fs e fs' Hn; [lia|].
  cbn [makedirs_rec]. unfold makedirs_body.
  destruct (let '(h, t) := Path.split name in
            if decide (t = []) then Path.split h else (h, t))
    as [head tail] eqn:Hs.
  destruct (makedirs_split_spec _ _ _ Hs) as (_ & _ & _ & Hlen & _ & _).
  assert (Path.split name = ((Path.split name).1, (Path.split name).2)) as Hsp
    by (by destruct (Path.split name)).
  rewrite Hsp in Hs |- *. rewrite Hs.
  destruct (bool_decide (head ≠ []) && bool_decide (tail ≠ [])
            && negb (FS.exists_ fs head)) eqn:Hcond;
    [|apply mkdir_or_exists_raises].
  apply andb_true_iff in Hcond as [Hcond _].
  apply andb_true_iff in Hcond as [_ Htl%bool_decide_eq_true].
  destruct (makedirs_rec n head exist_ok fs) as [[e1|[]] fs1] eqn:Hrec.
  - specialize (Hlen Htl).
    destruct (IH head exist_ok fs e1 fs1 ltac:(lia) Hrec) as [en ->].
    destruct en; try (intros [= <- _]; by eexists).
    destruct (decide (tail = FS.curdir)); [done|].
    apply mkdir_or_exists_raises.
  - destruct (decide (tail = FS.curdir)); [done|].
    apply mkdir_or_exists_raises.
Qed.

(** [os.makedirs] raises nothing but an [OSError]. *)
Lemma makedirs_raises name exist_ok fs e fs' :
  makedirs name exist_ok fs = (inl e, fs') → ∃ en, e = OSError en.
Proof. apply makedirs_rec_raises. lia. Qed.

Lemma makedirs_creates fs name :
  way_clear fs name →
  makedirs name true fs =
    (inr (), add_dirs (chain (FS.start fs name) (FS.components name)) fs).
Proof. intros Hw. apply makedirs_rec_creates; [lia|done]. Qed.

(** Opening and writing a file. *)
Lemma open_w_inr fs p k fs' :
  FS.open_w fs p = inr (k, fs') ↔
  FS.resolve fs p = inr k ∧ is_dir (FS.lookup fs k) = false
  ∧ fs' = FS.mk (<[k := File []]> (FS.nodes fs)) (FS.cwd fs).
Proof.
  unfold FS.open_w. destruct (FS.resolve fs p) as [e|k1].
  { split; [done|by intros [[=] _]]. }
  destruct (FS.lookup fs k1) as [[b|]|] eqn:Hl; cbn.
  - split; [intros [= <- <-]; by rewrite Hl|].
    intros ([= <-] & _ & ->). done.
  - split; [done|]. intros ([= <-] & Hd & _). by rewrite Hl in Hd.
  - split; [intros [= <- <-]; by rewrite Hl|].
    intros ([= <-] & _ & ->). done.
Qed.

Lemma append_opened (m : gmap (list pystr) node) cwd k b :
  FS.append (FS.mk (<[k := File []]> m) cwd) k b
  = FS.mk (<[k := File b]> m) cwd.
Proof.
  unfold FS.append. cbn. rewrite lookup_insert_eq. cbn.
  by rewrite insert_insert_eq.
Qed.

Lemma put_kept fs k nd :
  is_dir (FS.lookup fs k) = false →
  dirs_kept fs (FS.mk (<[k := nd]> (FS.nodes fs)) (FS.cwd fs)).
Proof.
  intros Hk. split; [done|]. intros k' Hd.
  destruct k' as [|c k']; [done|]. cbn in *.
  rewrite lookup_insert_ne; [done|]. intros ->.
  rewrite lookup_nodes in Hk by done. by rewrite Hd in Hk.
Qed.

Lemma open_w_read fs p k fs' b :
  FS.open_w fs p = inr (k, fs') →
  FS.read (FS.append fs' k b) p = Some b
  ∧ dirs_kept fs fs' ∧ dirs_kept fs (FS.append fs' k b).
Proof.
  intros (Hr & Hd & ->)%open_w_inr. rewrite append_opened.
  split; [|split]; [|by apply put_kept..].
  unfold FS.read, FS.stat.
  rewrite (resolve_mono _ _ _ _ (put_kept fs k (File b) Hd) Hr).
  assert (k ≠ []) by (by intros ->).
  rewrite lookup_nodes by done. cbn. by rewrite lookup_insert_eq.
Qed.

(** A file can only be opened in a directory that is there. *)
Lemma open_w_parent fs target k fs' :
  FS.open_w fs target = inr (k, fs') →
  Path.dirname target ≠ [] →
  FS.isdir fs (Path.dirname target) = true.
Proof.
  intros (Hr & Hd & _)%open_w_inr Hne.
  apply resolve_inr in Hr as (Htarget & Hw & Hend).
  rewrite dirname_split in *.
  destruct (Path.split target) as [d t] eqn:Hs. cbn [fst] in *.
  destruct (split_spec _ _ _ Hs) as (Ht & Hc & Habs & _ & _ & Hdp).
  assert (Htl : t ≠ []).
  { intros Hnil. destruct (Hdp Hnil) as [?|Hl]; [done|].
    assert (Str.endswith target sep = true) as He
      by (by apply bool_decide_eq_true_2).
    by rewrite (Hend He) in Hd. }
  rewrite (components_sep_free t) in Hc by done.
  rewrite Hc, walk_app in Hw.
  destruct (FS.walk fs (FS.start fs target) (FS.components d))
    as [e|k1] eqn:Hw1; [done|].
  cbn in Hw. destruct (FS.step fs k1 t) as [e|k2] eqn:Hst; [done|].
  apply step_inr in Hst as [Hk1 _].
  apply (isdir_intro _ _ k1); [done| |done].
  unfold FS.start. rewrite (Habs Hne). exact Hw1.
Qed.

(** Exporting to a path that can be exported to. *)
Lemma can_export_target (fs : FS.t) (target : pystr) :
  can_export fs target →
  let d := Path.dirname target in
  let keys := chain (FS.start fs d) (FS.components d) in
  FS.open_w (add_dirs keys fs) target =
    inr (FS.start fs target ++ FS.components target,
         FS.mk (<[FS.start fs target ++ FS.components target := File []]>
                  (FS.nodes (add_dirs keys fs))) (FS.cwd fs))
  ∧ FS.isdir (add_dirs keys fs) d = true.
Proof.
  intros (Hend & (Hd & Hregd & Hst & Hfile) & Hreg & Hkey). cbv zeta.
  rewrite dirname_split in *.
  destruct (Path.split target) as [d t] eqn:Hs. cbn [fst] in *.
  destruct (split_spec _ _ _ Hs) as (Ht & Hc & Habs & Hlen & _ & Hdp).
  assert (Htarget : target ≠ []).
  { intros ->. by destruct d. }
  assert (Htl : t ≠ []).
  { intros Hnil. destruct (Hdp Hnil) as [?|Hl]; [done|].
    unfold Str.endswith in Hend. by rewrite bool_decide_eq_true_2 in Hend. }
  rewrite (components_sep_free t) in Hc by done.
  assert (Hstart : FS.start fs d = FS.start fs target).
  { unfold FS.start. by rewrite (Habs Hd). }
  rewrite Hstart, Hc in *.
  set (keys := chain (FS.start fs target) (FS.components d)).
  set (fs1 := add_dirs keys fs).
  pose proof (add_dirs_kept keys fs (chain_keys_not_nil _ _)) as Hkept.
  fold fs1 in Hkept.
  assert (Hst1 : FS.lookup fs1 (FS.start fs target) = Some Dir)
    by (by apply Hkept).
  assert (Hch1 : Forall (λ k, FS.lookup fs1 k = Some Dir) keys).
  { apply Forall_forall. intros k Hk. unfold fs1.
    rewrite add_dirs_lookup by apply chain_keys_not_nil.
    by rewrite decide_True. }
  destruct (walk_chain fs1 _ _ Hregd Hst1 Hch1) as [Hwd Hld].
  apply Forall_app in Hreg as [_ [Hr1 Hr2]%Forall_singleton].
  split.
  - apply open_w_inr. split; [|split]; [| |done].
    + apply resolve_inr. split; [done|]. split.
      * change (FS.start fs1 target) with (FS.start fs target).
        rewrite Hc, walk_app, Hwd. cbn.
        assert (FS.step fs1 (FS.start fs target ++ FS.components d) t
                = inr ((FS.start fs target ++ FS.components d) ++ [t]))
          as ->; [|by rewrite <- app_assoc].
        apply step_inr. by rewrite !decide_False.
      * by rewrite Hend.
    + unfold fs1. rewrite add_dirs_lookup by apply chain_keys_not_nil.
      rewrite decide_False; [done|]. intros Hin%chain_length.
      rewrite !length_app in Hin. cbn in Hin. lia.
  - apply (isdir_intro _ _ (FS.start fs target ++ FS.components d));
      [done| |done].
    change (FS.start fs1 d) with (FS.start fs d). by rewrite Hstart.
Qed.

Lemma way_clear_isdir fs d :
  way_clear fs d →
  let fs1 := add_dirs (chain (FS.start fs d) (FS.components d)) fs in
  FS.isdir fs1 d = true
  ∧ Forall (λ k, FS.lookup fs1 k = Some Dir)
      (chain (FS.start fs d) (FS.components d)).
Proof.
  intros (Hd & Hreg & Hst & Hfile). cbv zeta.
  set (keys := chain (FS.start fs d) (FS.components d)).
  pose proof (add_dirs_kept keys fs (chain_keys_not_nil _ _)) as Hkept.
  assert (Hch : Forall (λ k, FS.lookup (add_dirs keys fs) k = Some Dir) keys).
  { apply Forall_forall. intros k Hk.
    rewrite add_dirs_lookup by apply chain_keys_not_nil.
    by rewrite decide_True. }
  split; [|done].
  destruct (walk_chain (add_dirs keys fs) (FS.start fs d) (FS.components d))
    as [Hw Hl]; [done|by apply Hkept|done|].
  by apply (isdir_intro _ _ (FS.start fs d ++ FS.components d)).
Qed.

End FSFacts.

Lemma percent_saving_script (t : pystr) :
  percent (lit "Saving script /%s") [t] = lit "Saving script /" ++ t.
Proof. cbv -[app]. by rewrite app_nil_r. Qed.

Section HookFacts.

Variable dir_path : pystr.
Variable host : platform.
Variable from_filename :
  Exporter → FS.t → pystr → exn + (pystr * gmap string pystr).

Local Abbreviation hook := (script_post_save dir_path host from_filename).

(** What a notebook save does, step by step. *)
Lemma notebook_save_run model os_path cm kwargs w :
  model !! "type" = Some (lit "notebook") →
  let x := exporter_in_use dir_path cm w in
  let pre := construction cm w ++ [FromFilename x os_path] in
  hook model os_path cm kwargs w =
    match from_filename x (w_fs w) os_path with
    | inl e => (inl e, with_calls w (w_fs w) (Some x) pre)
    | inr (script, resources) =>
        let ext := default (lit ".txt") (resources !! "output_extension") in
        let target := export_target dir_path (root_dir cm) os_path ext in
        let d := Path.dirname target in
        let log := LogInfo (log cm) (lit "Saving script /%s") [target] in
        let open := Open target (Some (lit "utf-8")) (Some [LF]) in
        match makedirs d true (w_fs w) with
        | (inl e, fs1) =>
            (inl e, with_calls w fs1 (Some x) (pre ++ [Makedirs d true]))
        | (inr _, fs1) =>
            match FS.open_w fs1 target with
            | inl e =>
                (inl (OSError e),
                 with_calls w fs1 (Some x)
                   (pre ++ [Makedirs d true; log; open]))
            | inr (k, fs2) =>
                match IO.encode UTF8 script with
                | None =>
                    (inl UnicodeEncodeError,
                     with_calls w fs2 (Some x)
                       (pre ++ [Makedirs d true; log; open;
                                Write k script]))
                | Some b =>
                    (inr (),
                     with_calls w (FS.append fs2 k b) (Some x)
                       (pre ++ [Makedirs d true; log; open;
                                Write k script]))
                end
            end
        end
    end.
Proof.
  intros Hty x pre. subst x pre.
  unfold script_post_save, export_script, getitem, bind at 1.
  rewrite Hty. cbn [ret].
  rewrite decide_False by (intros H; by apply H).
  unfold exporter_in_use, construction, with_calls, export_target,
    new_exporter.
  destruct (Path.splitext os_path) as [base ext0] eqn:Hsplit.
  destruct w as [fs g tr]; cbn.
  unfold bind, emit, get_script_exporter, set_script_exporter, on_fs,
    call_from_filename, os_makedirs, log_info, io_open_w, f_write, ret,
    bind, emit, on_fs; cbn.
  destruct (decide (g = None)) as [->|Hg]; cbn.
  - destruct (from_filename _ fs os_path) as [e|[script res]]; cbn.
    { by rewrite <- ?app_assoc. }
    destruct (makedirs _ true fs) as [[e|[]] fs1]; cbn.
    { by rewrite <- ?app_assoc. }
    rewrite open_w_utf8_lf.
    destruct (FS.open_w fs1 _) as [e|[k fs2]]; cbn.
    { by rewrite <- ?app_assoc. }
    rewrite write_utf8_lf.
    destruct (IO.encode UTF8 script) as [b|]; cbn;
      by rewrite <- ?app_assoc.
  - destruct g as [x|]; [clear Hg|done]; cbn.
    destruct (from_filename _ fs os_path) as [e|[script res]]; cbn.
    { by rewrite <- ?app_assoc. }
    destruct (makedirs _ true fs) as [[e|[]] fs1]; cbn.
    { by rewrite <- ?app_assoc. }
    rewrite open_w_utf8_lf.
    destruct (FS.open_w fs1 _) as [e|[k fs2]]; cbn.
    { by rewrite <- ?app_assoc. }
    rewrite write_utf8_lf.
    destruct (IO.encode UTF8 script) as [b|]; cbn;
      by rewrite <- ?app_assoc.
Qed.

Lemma other_save_run model os_path cm kwargs w type :
  model !! "type" = Some type → type ≠ lit "notebook" →
  hook model os_path cm kwargs w = (inr (), w).
Proof.
  intros Hty Hne. unfold script_post_save, getitem, bind.
  rewrite Hty. cbn [ret]. by rewrite decide_True.
Qed.

(** C2: a save whose model type is not "notebook" returns at once and
    leaves the whole world as it was: the directory tree, the cached
    exporter (none is built) and the record of calls (no conversion, no
    file-system call, no log line). *)
Theorem non_notebook_save_has_no_effect model os_path cm kwargs w type :
  model !! "type" = Some type → type ≠ lit "notebook" →
  hook model os_path cm kwargs w = (inr (), w).
Proof. apply other_save_run. Qed.

(** The calls a notebook save makes once the conversion has returned. *)
Lemma notebook_save_calls model os_path cm kwargs w script resources :
  model !! "type" = Some (lit "notebook") →
  let x := exporter_in_use dir_path cm w in
  from_filename x (w_fs w) os_path = inr (script, resources) →
  let ext := default (lit ".txt") (resources !! "output_extension") in
  let target := export_target dir_path (root_dir cm) os_path ext in
  let d := Path.dirname target in
  let log := LogInfo (log cm) (lit "Saving script /%s") [target] in
  let open := Open target (Some (lit "utf-8")) (Some [LF]) in
  let r := hook model os_path cm kwargs w in
  ∃ rest,
    w_trace r.2 =
      w_trace w ++ construction cm w
        ++ [FromFilename x os_path; Makedirs d true] ++ rest
    ∧ (rest = [] ∧ r.1 ≠ inr ()
       ∨ rest = [log; open] ∧ r.1 ≠ inr ()
       ∨ ∃ k, rest = [log; open; Write k script]).
Proof.
  intros Hty x Hconv. subst x. cbv zeta.
  rewrite notebook_save_run by done. rewrite Hconv. cbv zeta.
  destruct (makedirs _ true (w_fs w)) as [[e|[]] fs1]; cbn.
  { exists []. split; [by trace_eq|]. left. done. }
  destruct (FS.open_w fs1 _) as [e|[k fs2]]; cbn.
  { eexists. split; [by trace_eq|]. right; left. done. }
  eexists.
  destruct (IO.encode UTF8 script); cbn;
    (split; [by trace_eq|]); right; right; by exists k.
Qed.

(** C5: the extension in the export path is the value the resources
    hold under the key "output_extension", and ".txt" when they hold
    none. The directory made is that of the path built with it; once the
    directory is made, the line logged and the file opened are for that
    path; a save that returns leaves the encoded script in the file of
    that path; and the save does return when that path can be exported
    to and the script can be encoded. *)
Theorem extension_from_resources model os_path cm kwargs w script
    resources :
  model !! "type" = Some (lit "notebook") →
  let x := exporter_in_use dir_path cm w in
  from_filename x (w_fs w) os_path = inr (script, resources) →
  let ext :=
    match resources !! "output_extension" with
    | Some e => e
    | None => lit ".txt"
    end in
  let target :=
    Path.join dir_path
      [lit ".nbexports";
       to_api_path ((Path.splitext os_path).1 ++ ext) (root_dir cm)] in
  let d := Path.dirname target in
  let log := LogInfo (log cm) (lit "Saving script /%s") [target] in
  let open := Open target (Some (lit "utf-8")) (Some [LF]) in
  let r := hook model os_path cm kwargs w in
  (∃ rest,
     w_trace r.2 =
       w_trace w ++ construction cm w
         ++ [FromFilename x os_path; Makedirs d true] ++ rest
     ∧ (rest = [] ∧ r.1 ≠ inr ()
          ∧ (∃ e fs1, makedirs d true (w_fs w) = (inl e, fs1))
        ∨ rest = [log; open] ∧ r.1 ≠ inr ()
        ∨ ∃ k, rest = [log; open; Write k script]
               ∧ (r.1 = inr () →
                  ∃ b, IO.encode UTF8 script = Some b
                       ∧ FS.read (w_fs r.2) target = Some b)))
  ∧ (can_export (w_fs w) target →
     ∀ b, IO.encode UTF8 script = Some b →
       r.1 = inr () ∧ FS.read (w_fs r.2) target = Some b).
Proof.
  intros Hty x Hconv. subst x. cbv zeta.
  assert (match resources !! "output_extension" with
          | Some e => e
          | None => lit ".txt"
          end = default (lit ".txt") (resources !! "output_extension")) as ->
    by (by destruct (resources !! "output_extension")).
  set (ext := default (lit ".txt") (resources !! "output_extension")).
  change (Path.join dir_path
            [lit ".nbexports";
             to_api_path ((Path.splitext os_path).1 ++ ext) (root_dir cm)])
    with (export_target dir_path (root_dir cm) os_path ext).
  set (target := export_target dir_path (root_dir cm) os_path ext).
  rewrite notebook_save_run by done. rewrite Hconv. cbv zeta.
  fold ext. fold target. split.
  - destruct (makedirs (Path.dirname target) true (w_fs w))
      as [[e|[]] fs1] eqn:Hmk.
    { exists []. split; [by trace_eq|]. left. repeat split; [done|eauto]. }
    destruct (FS.open_w fs1 target) as [e|[k fs2]] eqn:Hopen.
    { eexists. split; [by trace_eq|]. right. left. by split. }
    eexists. split.
    { destruct (IO.encode UTF8 script); by trace_eq. }
    right. right. exists k. split; [done|].
    destruct (IO.encode UTF8 script) as [b|]; [|done].
    intros _. exists b. split; [done|]. cbn [snd with_calls w_fs].
    by destruct (open_w_read _ _ _ _ b Hopen) as [? _].
  - intros Hcan b Hb. rewrite makedirs_creates by apply Hcan.
    destruct (can_export_target _ _ Hcan) as [Hopen _]. cbv zeta in Hopen.
    fold target in Hopen. rewrite Hopen, Hb. cbn [fst snd with_calls w_fs].
    split; [done|].
    by destruct (open_w_read _ _ _ _ b Hopen) as [? _].
Qed.

(** C7: whatever the conversion, the making of the directories, the
    opening of the file or the writing raises is what the hook raises,
    and the call that raised is the last call made: nothing is caught,
    retried or replaced. *)
Theorem failures_propagate model os_path cm kwargs w :
  model !! "type" = Some (lit "notebook") →
  let x := exporter_in_use dir_path cm w in
  let r := hook model os_path cm kwargs w in
  let pre := w_trace w ++ construction cm w ++ [FromFilename x os_path] in
  (∀ e, from_filename x (w_fs w) os_path = inl e →
     r.1 = inl e ∧ w_trace r.2 = pre)
  ∧ (∀ script resources,
       from_filename x (w_fs w) os_path = inr (script, resources) →
       let ext := default (lit ".txt") (resources !! "output_extension") in
       let target := export_target dir_path (root_dir cm) os_path ext in
       let d := Path.dirname target in
       let log := LogInfo (log cm) (lit "Saving script /%s") [target] in
       let open := Open target (Some (lit "utf-8")) (Some [LF]) in
       (∀ e fs1, makedirs d true (w_fs w) = (inl e, fs1) →
          r.1 = inl e ∧ w_trace r.2 = pre ++ [Makedirs d true])
       ∧ (∀ fs1 e fs2,
            makedirs d true (w_fs w) = (inr (), fs1) →
            IO.open_w host target (Some (lit "utf-8")) (Some [LF]) fs1
              = (inl e, fs2) →
            r.1 = inl e ∧ w_trace r.2 = pre ++ [Makedirs d true; log; open])
       ∧ (∀ fs1 f fs2 e fs3,
            makedirs d true (w_fs w) = (inr (), fs1) →
            IO.open_w host target (Some (lit "utf-8")) (Some [LF]) fs1
              = (inr f, fs2) →
            IO.write f script fs2 = (inl e, fs3) →
            r.1 = inl e
            ∧ w_trace r.2 =
                pre ++ [Makedirs d true; log; open;
                        Write (IO.fh_key f) script])).
Proof.
  intros Hty x r pre. subst x r pre. rewrite notebook_save_run by done.
  split.
  - intros e ->. cbn. by rewrite <- ?app_assoc.
  - intros script resources ->. cbv zeta.
    split; [|split].
    + intros e fs1 ->. cbn. by rewrite <- ?app_assoc.
    + intros fs1 e fs2 ->. rewrite open_w_utf8_lf.
      destruct (FS.open_w fs1 _) as [e'|[k fs2']]; [|done].
      intros [= <- <-]. cbn. by rewrite <- ?app_assoc.
    + intros fs1 f fs2 e fs3 ->. rewrite open_w_utf8_lf.
      destruct (FS.open_w fs1 _) as [e'|[k fs2']]; [done|].
      intros [= <- <-]. rewrite write_utf8_lf.
      destruct (IO.encode UTF8 script); [done|].
      intros [= <- <-]. cbn. by rewrite <- ?app_assoc.
Qed.

(** C9: when the conversion raises, the directory tree is as it was: the
    only calls made are the construction of the exporter, if it was due,
    and the conversion itself; whatever the outcome, the conversion comes
    before every file-system call. *)
Theorem failed_conversion_leaves_tree model os_path cm kwargs w :
  model !! "type" = Some (lit "notebook") →
  let x := exporter_in_use dir_path cm w in
  let r := hook model os_path cm kwargs w in
  (∀ e, from_filename x (w_fs w) os_path = inl e →
     w_fs r.2 = w_fs w
     ∧ w_trace r.2 = w_trace w ++ construction cm w ++ [FromFilename x os_path])
  ∧ ∃ rest,
      w_trace r.2 =
        w_trace w ++ construction cm w ++ FromFilename x os_path :: rest
      ∧ List.forallb (λ ev, negb (is_fs_call ev)) (construction cm w) = true.
Proof.
  intros Hty x r. subst x r. rewrite notebook_save_run by done. split.
  - intros e ->. cbn. by rewrite <- ?app_assoc.
  - assert (Hc : List.forallb (λ ev, negb (is_fs_call ev))
                   (construction cm w) = true).
    { unfold construction. by destruct (w_script_exporter w). }
    destruct (from_filename _ _ _) as [e|[script resources]]; cbn.
    { exists []. by rewrite <- ?app_assoc. }
    destruct (makedirs _ true (w_fs w)) as [[e|[]] fs1]; cbn.
    { eexists. split; [by trace_eq|done]. }
    destruct (FS.open_w fs1 _) as [e|[k fs2]]; cbn.
    { eexists. split; [by trace_eq|done]. }
    destruct (IO.encode UTF8 script); cbn;
      (eexists; split; [by trace_eq|done]).
Qed.

(** C8, as amended: a successful export makes exactly one logging call,
    on the logger of the contents manager, after the directories are
    made and before the file is opened and written; the text logged is
    "Saving script /" followed by the path of the export file. *)
Theorem export_logs_destination model os_path cm kwargs w w' script
    resources :
  model !! "type" = Some (lit "notebook") →
  let x := exporter_in_use dir_path cm w in
  from_filename x (w_fs w) os_path = inr (script, resources) →
  hook model os_path cm kwargs w = (inr (), w') →
  let ext := default (lit ".txt") (resources !! "output_extension") in
  let target := export_target dir_path (root_dir cm) os_path ext in
  let logged := LogInfo (log cm) (lit "Saving script /%s") [target] in
  (∃ k,
     w_trace w' =
       w_trace w ++ construction cm w
         ++ [FromFilename x os_path; Makedirs (Path.dirname target) true;
             logged;
             Open target (Some (lit "utf-8")) (Some [LF]);
             Write k script])
  ∧ List.filter is_log (drop (length (w_trace w)) (w_trace w')) = [logged]
  ∧ message logged = Some (lit "Saving script /" ++ target).
Proof.
  intros Hty x Hconv Hrun ext target logged.
  destruct (notebook_save_calls model os_path cm kwargs w script resources
              Hty Hconv) as (rest & Htr & Hrest).
  cbv zeta in Htr, Hrest. rewrite Hrun in Htr, Hrest.
  cbn [fst snd] in Htr, Hrest.
  destruct Hrest as [[_ ?]|[[_ ?]|[k ->]]]; [done|done|].
  split; [by exists k|]. split.
  - rewrite Htr, drop_app_length. rewrite List.filter_app.
    unfold construction. by destruct (w_script_exporter w).
  - unfold logged, message. by rewrite percent_saving_script.
Qed.

(** A save that is not a notebook's, or has no type, leaves the world. *)
Lemma other_save_world model os_path cm kwargs w :
  is_notebook model = false → (hook model os_path cm kwargs w).2 = w.
Proof.
  unfold is_notebook. intros Hnb%bool_decide_eq_false.
  unfold script_post_save, getitem, bind.
  destruct (model !! "type") as [type|] eqn:Hty; [|done].
  cbn [ret]. rewrite decide_True; [done|]. congruence.
Qed.

(** The exporter and the constructions after one notebook save. *)
Lemma notebook_save_exporter model os_path cm kwargs w :
  is_notebook model = true →
  let x := exporter_in_use dir_path cm w in
  let w' := (hook model os_path cm kwargs w).2 in
  w_script_exporter w' = Some x
  ∧ ∃ rest,
      w_trace w' = w_trace w ++ construction cm w
                     ++ FromFilename x os_path :: rest
      ∧ List.filter is_construct rest = []
      ∧ List.filter is_conversion rest = [].
Proof.
  unfold is_notebook. intros Hty%bool_decide_eq_true. cbv zeta.
  rewrite notebook_save_run by done.
  destruct (from_filename _ _ _) as [e|[script resources]]; cbn.
  { split; [done|]. exists []. by rewrite <- ?app_assoc. }
  destruct (makedirs _ true (w_fs w)) as [[e|[]] fs1]; cbn.
  { split; [done|]. eexists. split; [by trace_eq|done]. }
  destruct (FS.open_w fs1 _) as [e|[k fs2]]; cbn.
  { split; [done|]. eexists. split; [by trace_eq|done]. }
  destruct (IO.encode UTF8 script); cbn;
    (split; [done|]; eexists; split; [by trace_eq|done]).
Qed.

Local Abbreviation run := (process dir_path host from_filename).
Local Abbreviation notebook_saves :=
  (List.filter (λ s : save, is_notebook (s_model s))).

(** The exporter, the constructions and the conversions after a
    sequence of saves. *)
Lemma process_exporter saves w :
  let first := head (notebook_saves saves) in
  let w' := run saves w in
  w_script_exporter w' =
    match w_script_exporter w with
    | Some x => Some x
    | None => (λ s, new_exporter dir_path (s_contents_manager s)) <$> first
    end
  ∧ List.filter is_construct (w_trace w') =
      List.filter is_construct (w_trace w)
        ++ match w_script_exporter w, first with
           | None, Some s => [Construct (s_contents_manager s)]
           | _, _ => []
           end
  ∧ ∀ x p, FromFilename x p ∈ w_trace w' →
      FromFilename x p ∈ w_trace w ∨ w_script_exporter w' = Some x.
Proof.
  revert w. induction saves as [|s saves IH]; intros w; cbv zeta.
  { cbn. destruct (w_script_exporter w); rewrite app_nil_r; auto. }
  change (run (s :: saves) w) with (run saves (on_save dir_path host
    from_filename s w).2).
  set (w1 := (on_save dir_path host from_filename s w).2).
  destruct (IH w1) as (IHx & IHc & IHf). clear IH.
  cbn [List.filter]. destruct (is_notebook (s_model s)) eqn:Hnb.
  - destruct (notebook_save_exporter (s_model s) (s_os_path s)
                (s_contents_manager s) (s_kwargs s) w Hnb)
      as (Hx & rest & Htr & Hrc & Hrf).
    fold (on_save dir_path host from_filename s w) in Hx, Htr.
    fold w1 in Hx, Htr. cbn [head].
    rewrite Hx in IHx, IHc.
    split; [|split].
    + rewrite IHx. unfold exporter_in_use.
      by destruct (w_script_exporter w).
    + rewrite IHc, Htr, app_nil_r.
      rewrite !List.filter_app. cbn [List.filter is_construct].
      rewrite Hrc, app_nil_r. unfold construction.
      destruct (w_script_exporter w); cbn; by rewrite ?app_nil_r.
    + intros x p Hin. destruct (IHf x p Hin) as [Hin1|Hx1]; [|by right].
      rewrite Htr in Hin1.
      rewrite !elem_of_app, elem_of_cons in Hin1.
      destruct Hin1 as [?|[Hc|[[= -> ->]|Hr]]]; [by left| | |].
      * unfold construction in Hc.
        destruct (w_script_exporter w);
          [by apply elem_of_nil in Hc|].
        by apply list_elem_of_singleton in Hc.
      * right. by rewrite IHx.
      * apply list_elem_of_In in Hr.
        assert (Hf : In (FromFilename x p) (List.filter is_conversion rest))
          by (by apply List.filter_In).
        rewrite Hrf in Hf. destruct Hf.
  - assert (Hw1 : w1 = w) by (by apply other_save_world).
    clearbody w1. subst w1. auto.
Qed.

(** C4: in a process that starts without an exporter, however many saves
    follow, at most one exporter is ever constructed; it is constructed
    by the first notebook save and for its contents manager (none is
    constructed while no notebook is saved); from then on it stays in
    the module global, and every conversion is made with it. *)
Theorem exporter_constructed_once fs saves :
  let first := head (notebook_saves saves) in
  let w' := run saves
              {| w_fs := fs; w_script_exporter := None; w_trace := [] |} in
  (length (List.filter is_construct (w_trace w')) ≤ 1)%nat
  ∧ List.filter is_construct (w_trace w') =
      match first with
      | Some s => [Construct (s_contents_manager s)]
      | None => []
      end
  ∧ w_script_exporter w' =
      (λ s, new_exporter dir_path (s_contents_manager s)) <$> first
  ∧ (∀ x p, FromFilename x p ∈ w_trace w' → w_script_exporter w' = Some x)
  ∧ (∀ more,
       w_script_exporter w' ≠ None →
       w_script_exporter (run more w') = w_script_exporter w'
       ∧ List.filter is_construct (w_trace (run more w')) =
           List.filter is_construct (w_trace w')).
Proof.
  cbv zeta.
  destruct (process_exporter saves
              {| w_fs := fs; w_script_exporter := None; w_trace := [] |})
    as (Hx & Hc & Hf).
  cbn [w_script_exporter w_trace List.filter app] in Hx, Hc, Hf.
  split; [|split; [|split; [|split]]].
  - rewrite Hc. destruct (head _); cbn; lia.
  - rewrite Hc. by destruct (head _).
  - exact Hx.
  - intros x p Hin. destruct (Hf x p Hin) as [Hin0|]; [|done].
    by apply elem_of_nil in Hin0.
  - intros more Hne.
    destruct (process_exporter more (run saves
                {| w_fs := fs; w_script_exporter := None; w_trace := [] |}))
      as (Hx' & Hc' & _).
    destruct (w_script_exporter (run saves _)) as [x|] eqn:Hw; [|done].
    split; [done|]. by rewrite Hc', app_nil_r.
Qed.

(** A notebook save that returns normally has made the directories,
    opened the file and written the encoded text. *)
Lemma save_returns_inv model os_path cm kwargs w w' script resources :
  model !! "type" = Some (lit "notebook") →
  let x := exporter_in_use dir_path cm w in
  from_filename x (w_fs w) os_path = inr (script, resources) →
  hook model os_path cm kwargs w = (inr (), w') →
  let ext := default (lit ".txt") (resources !! "output_extension") in
  let target := export_target dir_path (root_dir cm) os_path ext in
  ∃ fs1 k fs2 b,
    makedirs (Path.dirname target) true (w_fs w) = (inr (), fs1)
    ∧ FS.open_w fs1 target = inr (k, fs2)
    ∧ IO.encode UTF8 script = Some b
    ∧ w_fs w' = FS.append fs2 k b
    ∧ w_script_exporter w' = Some x
    ∧ w_trace w' =
        w_trace w ++ construction cm w
          ++ [FromFilename x os_path; Makedirs (Path.dirname target) true;
              LogInfo (log cm) (lit "Saving script /%s") [target];
              Open target (Some (lit "utf-8")) (Some [LF]);
              Write k script].
Proof.
  intros Hty x Hconv. subst x. cbv zeta.
  rewrite notebook_save_run by done. rewrite Hconv. cbv zeta.
  destruct (makedirs _ true (w_fs w)) as [[e|[]] fs1]; [done|].
  destruct (FS.open_w fs1 _) as [e|[k fs2]] eqn:Hopen; [done|].
  destruct (IO.encode UTF8 script) as [b|]; [|done].
  intros [= <-]. exists fs1, k, fs2, b.
  repeat (split; [done|]). by trace_eq.
Qed.

(** A notebook save returns normally when the export path can be exported
    to and the text can be encoded. *)
Lemma export_succeeds model os_path cm kwargs w script resources b :
  model !! "type" = Some (lit "notebook") →
  let x := exporter_in_use dir_path cm w in
  from_filename x (w_fs w) os_path = inr (script, resources) →
  let ext := default (lit ".txt") (resources !! "output_extension") in
  let target := export_target dir_path (root_dir cm) os_path ext in
  can_export (w_fs w) target →
  IO.encode UTF8 script = Some b →
  hook model os_path cm kwargs w =
    (inr (),
     with_calls w (exported (w_fs w) target b) (Some x)
       (construction cm w
          ++ [FromFilename x os_path; Makedirs (Path.dirname target) true;
              LogInfo (log cm) (lit "Saving script /%s") [target];
              Open target (Some (lit "utf-8")) (Some [LF]);
              Write (FS.start (w_fs w) target ++ FS.components target)
                script])).
Proof.
  intros Hty x Hconv. subst x. cbv zeta. intros Hcan Henc.
  rewrite notebook_save_run by done. rewrite Hconv. cbv zeta.
  rewrite makedirs_creates by apply Hcan.
  destruct (can_export_target _ _ Hcan) as [-> _]. rewrite Henc.
  f_equal. unfold with_calls. f_equal; [|by trace_eq].
  unfold exported. by rewrite append_opened.
Qed.

(** C1: the export of the notebook at the relative path [p] under the
    storage root, for output extension [e], goes to the [.nbexports]
    directory beside the configuration file, at [p] with the extension
    that [os.path.splitext] finds replaced by [e]: that is the path whose
    directory is made and which is logged, opened and written; a save that
    returns normally leaves the encoded text in the file at that path; and
    the save does return normally when that path can be exported to and
    the text can be encoded. *)
Theorem export_mirrors_notebook_path model cm kwargs w p e script
    resources :
  model !! "type" = Some (lit "notebook") →
  api_path p → sep ∉ e →
  let os_path := Path.join (root_dir cm) [p] in
  let x := exporter_in_use dir_path cm w in
  from_filename x (w_fs w) os_path = inr (script, resources) →
  resources !! "output_extension" = Some e →
  let target := nbexports_path dir_path ++ sep :: (Path.splitext p).1 ++ e in
  let r := hook model os_path cm kwargs w in
  (∃ rest,
     w_trace r.2 =
       w_trace w ++ construction cm w
         ++ [FromFilename x os_path; Makedirs (Path.dirname target) true]
         ++ rest
     ∧ ∀ ev, ev ∈ rest →
         ev = LogInfo (log cm) (lit "Saving script /%s") [target]
         ∨ ev = Open target (Some (lit "utf-8")) (Some [LF])
         ∨ ∃ k, ev = Write k script)
  ∧ (r.1 = inr () →
     ∃ b, IO.encode UTF8 script = Some b
          ∧ FS.read (w_fs r.2) target = Some b)
  ∧ (can_export (w_fs w) target →
     ∀ b, IO.encode UTF8 script = Some b → r.1 = inr ()).
Proof.
  intros Hty Hp He os_path x Hconv Hext target r.
  assert (Htarget : export_target dir_path (root_dir cm) os_path
                      (default (lit ".txt") (resources !! "output_extension"))
                    = target).
  { rewrite Hext. cbn [default]. by apply export_target_mirrors. }
  split; [|split].
  - destruct (notebook_save_calls model os_path cm kwargs w script resources
                Hty Hconv) as (rest & Htr & Hrest).
    cbv zeta in Htr, Hrest. rewrite Htarget in Htr, Hrest.
    exists rest. split; [exact Htr|]. intros ev Hev.
    destruct Hrest as [[-> _]|[[-> _]|[k ->]]].
    + by apply elem_of_nil in Hev.
    + rewrite !elem_of_cons, elem_of_nil in Hev.
      destruct Hev as [->|[->|[]]]; auto.
    + rewrite !elem_of_cons, elem_of_nil in Hev.
      destruct Hev as [->|[->|[->|[]]]]; eauto.
  - intros Hr. destruct r as [res w'] eqn:Hrun. cbn in Hr. subst res.
    destruct (save_returns_inv model os_path cm kwargs w w' script resources
                Hty Hconv Hrun)
      as (fs1 & k & fs2 & b & _ & Hopen & Henc & Hfs & _ & _).
    cbv zeta in Hopen. rewrite Htarget in Hopen.
    exists b. split; [done|]. cbn [snd]. rewrite Hfs.
    by destruct (open_w_read _ _ _ _ b Hopen) as [? _].
  - intros Hcan b Henc. subst r.
    rewrite (export_succeeds model os_path cm kwargs w script resources b);
      [done|done|done| |done].
    cbv zeta. by rewrite Htarget.
Qed.

(** C3: a notebook save that returns normally leaves, at the export path,
    a file holding exactly the encoded text of the script, whatever was
    there before; and saving again, when the exporter renders the same
    script and resources, returns normally too and leaves the whole tree,
    the export file with it, as the first save left it. *)
Theorem resave_leaves_export_identical model os_path cm kwargs w w1 script
    resources :
  model !! "type" = Some (lit "notebook") →
  from_filename (exporter_in_use dir_path cm w) (w_fs w) os_path
    = inr (script, resources) →
  hook model os_path cm kwargs w = (inr (), w1) →
  from_filename (exporter_in_use dir_path cm w1) (w_fs w1) os_path
    = inr (script, resources) →
  let ext := default (lit ".txt") (resources !! "output_extension") in
  let target := export_target dir_path (root_dir cm) os_path ext in
  (∃ b, IO.encode UTF8 script = Some b
        ∧ FS.read (w_fs w1) target = Some b)
  ∧ ∃ w2, hook model os_path cm kwargs w1 = (inr (), w2)
          ∧ w_fs w2 = w_fs w1.
Proof.
  intros Hty Hconv Hrun Hconv1. cbv zeta.
  destruct (save_returns_inv model os_path cm kwargs w w1 script resources
              Hty Hconv Hrun)
    as (fs1 & k & fs2 & b & Hmk & Hopen & Henc & Hfs & Hx & _).
  cbv zeta in Hmk, Hopen.
  set (target := export_target dir_path (root_dir cm) os_path
                   (default (lit ".txt") (resources !! "output_extension")))
    in *.
  destruct (open_w_read _ _ _ _ b Hopen) as (Hread & _ & Hkept).
  rewrite <- Hfs in Hread, Hkept.
  split; [by exists b|].
  assert (Hd : Path.dirname target ≠ []).
  { intros Hnil. rewrite Hnil in Hmk. vm_compute in Hmk. done. }
  pose proof (open_w_parent _ _ _ _ Hopen Hd) as Hdir.
  rewrite notebook_save_run by done. rewrite Hconv1. cbv zeta. fold target.
  rewrite (makedirs_existing (w_fs w1)) by (by apply (isdir_mono fs1)).
  apply open_w_inr in Hopen as (Hres & Hnd & ->).
  rewrite append_opened in Hfs.
  assert (Hopen1 : FS.open_w (w_fs w1) target =
            inr (k, FS.mk (<[k := File []]> (FS.nodes (w_fs w1)))
                      (FS.cwd (w_fs w1)))).
  { apply open_w_inr. split; [|split]; [| |done].
    - by apply (resolve_mono fs1).
    - assert (k ≠ []) by (by intros ->).
      rewrite lookup_nodes by done. rewrite Hfs. cbn.
      by rewrite lookup_insert_eq. }
  rewrite Hopen1, Henc. eexists. split; [done|]. cbn.
  rewrite append_opened. rewrite Hfs. cbn.
  by rewrite insert_insert_eq.
Qed.

(** C6: when nothing stands in the way of the directory that is to hold
    the export file, or when it is there already, making it raises no
    error: the hook goes on to open the file, in a tree where that
    directory exists, and every directory of the tree before the save is a
    directory after it; on a clear way every missing directory on the way
    is made; and a directory that is there already leaves [os.makedirs]
    nothing to do. *)
Theorem export_directory_made model os_path cm kwargs w script resources :
  model !! "type" = Some (lit "notebook") →
  let x := exporter_in_use dir_path cm w in
  from_filename x (w_fs w) os_path = inr (script, resources) →
  let ext := default (lit ".txt") (resources !! "output_extension") in
  let target := export_target dir_path (root_dir cm) os_path ext in
  let d := Path.dirname target in
  let r := hook model os_path cm kwargs w in
  (way_clear (w_fs w) d ∨ FS.isdir (w_fs w) d = true →
   (∃ fs1, makedirs d true (w_fs w) = (inr (), fs1)
           ∧ FS.isdir fs1 d = true)
   ∧ (∃ rest,
        w_trace r.2 =
          w_trace w ++ construction cm w
            ++ [FromFilename x os_path; Makedirs d true;
                LogInfo (log cm) (lit "Saving script /%s") [target];
                Open target (Some (lit "utf-8")) (Some [LF])]
            ++ rest)
   ∧ FS.isdir (w_fs r.2) d = true
   ∧ dirs_kept (w_fs w) (w_fs r.2))
  ∧ (way_clear (w_fs w) d →
     Forall (λ k, FS.lookup (w_fs r.2) k = Some Dir)
       (chain (FS.start (w_fs w) d) (FS.components d)))
  ∧ (FS.isdir (w_fs w) d = true →
     makedirs d true (w_fs w) = (inr (), w_fs w)).
Proof.
  intros Hty x Hconv. subst x. cbv zeta.
  set (target := export_target dir_path (root_dir cm) os_path
                   (default (lit ".txt") (resources !! "output_extension"))).
  set (d := Path.dirname target).
  assert (Hafter : ∀ fs1,
    makedirs d true (w_fs w) = (inr (), fs1) →
    (∃ rest,
       w_trace (hook model os_path cm kwargs w).2 =
         w_trace w ++ construction cm w
           ++ [FromFilename (exporter_in_use dir_path cm w) os_path;
               Makedirs d true;
               LogInfo (log cm) (lit "Saving script /%s") [target];
               Open target (Some (lit "utf-8")) (Some [LF])]
           ++ rest)
    ∧ dirs_kept fs1 (w_fs (hook model os_path cm kwargs w).2)).
  { intros fs1 Hmk. rewrite notebook_save_run by done. rewrite Hconv.
    cbv zeta. fold target d. rewrite Hmk.
    destruct (FS.open_w fs1 target) as [e|[k fs2]] eqn:Hopen.
    { split; [exists []; by trace_eq|apply dirs_kept_refl]. }
    destruct (open_w_read _ _ _ _ [] Hopen) as (_ & Hk2 & _).
    destruct (IO.encode UTF8 script) as [b|].
    - destruct (open_w_read _ _ _ _ b Hopen) as (_ & _ & Hk3).
      split; [eexists; by trace_eq|done].
    - split; [eexists; by trace_eq|done]. }
  split; [|split].
  - intros [Hclear|Hdir].
    + pose proof (makedirs_creates _ _ Hclear) as Hmk.
      destruct (way_clear_isdir _ _ Hclear) as [Hd1 _].
      destruct (Hafter _ Hmk) as [Htr Hk].
      split; [by eexists|]. split; [done|]. split.
      * by apply (isdir_mono _ _ _ Hk).
      * eapply dirs_kept_trans; [|exact Hk].
        apply add_dirs_kept, chain_keys_not_nil.
    + pose proof (makedirs_existing _ _ Hdir) as Hmk.
      destruct (Hafter _ Hmk) as [Htr Hk].
      split; [by eexists|]. split; [done|]. split; [|done].
      by apply (isdir_mono _ _ _ Hk).
  - intros Hclear.
    pose proof (makedirs_creates _ _ Hclear) as Hmk.
    destruct (way_clear_isdir _ _ Hclear) as [_ Hch].
    destruct (Hafter _ Hmk) as [_ Hk].
    eapply Forall_impl; [exact Hch|]. intros k. apply Hk.
  - apply makedirs_existing.
Qed.

End HookFacts.

(** C10: the export file is written in UTF-8 and with line feeds as they
    are, whatever the host platform prefers: the file is opened with
    encoding "utf-8" and newline "\n", a save that returns normally leaves
    in the file the UTF-8 encoding of the script itself, and under any
    other host the same save ends in the same way with the same world. *)
Theorem export_is_utf8_with_line_feeds dir_path host from_filename model
    os_path cm kwargs w w' script resources :
  model !! "type" = Some (lit "notebook") →
  let x := exporter_in_use dir_path cm w in
  from_filename x (w_fs w) os_path = inr (script, resources) →
  script_post_save dir_path host from_filename model os_path cm kwargs w
    = (inr (), w') →
  let ext := default (lit ".txt") (resources !! "output_extension") in
  let target := export_target dir_path (root_dir cm) os_path ext in
  Open target (Some (lit "utf-8")) (Some [LF]) ∈ w_trace w'
  ∧ (∃ b, IO.encode UTF8 script = Some b
          ∧ FS.read (w_fs w') target = Some b)
  ∧ ∀ host',
      script_post_save dir_path host' from_filename model os_path cm kwargs w
      = (inr (), w').
Proof.
  intros Hty x Hconv Hrun. cbv zeta.
  destruct (save_returns_inv dir_path host from_filename model os_path cm
              kwargs w w' script resources Hty Hconv Hrun)
    as (fs1 & k & fs2 & b & _ & Hopen & Henc & Hfs & _ & ->).
  split; [|split].
  - rewrite !elem_of_app, !elem_of_cons. auto 10.
  - exists b. split; [done|]. rewrite Hfs.
    by destruct (open_w_read _ _ _ _ b Hopen) as [? _].
  - intros host'. rewrite <- Hrun.
    by rewrite !notebook_save_run.
Qed.

(** ** The model at work *)

(** UTF-8 at the boundaries of its four lengths. *)
Example utf8_sample :
  IO.encode UTF8 [0x41; 0xE9; 0x20AC; 0x1F600]%N
  = Some [0x41; 0xC3; 0xA9; 0xE2; 0x82; 0xAC; 0xF0; 0x9F; 0x98; 0x80]%N.
Proof. reflexivity. Qed.

(** A lone surrogate cannot be encoded. *)
Example utf8_surrogate : IO.encode UTF8 [0xD800%N] = None.
Proof. reflexivity. Qed.

(** Left to the host, the text layer follows the host: on a host that
    prefers Latin-1 and ends lines with carriage return and line feed, a
    file opened without encoding and newline gets other bytes than one
    opened as the hook opens it. *)
Example host_defaults_differ :
  let text := [0xE9%N; LF] in
  let bytes_with enc nl :=
    match IO.open_w Demo.host_crlf (lit "/proj/f") enc nl Demo.tree with
    | (inr f, fs) =>
        match IO.write f text fs with
        | (inr _, fs') => FS.read fs' (lit "/proj/f")
        | _ => None
        end
    | _ => None
    end in
  bytes_with None None = Some [0xE9; 0x0D; 0x0A]%N
  ∧ bytes_with (Some (lit "utf-8")) (Some [LF]) = Some [0xC3; 0xA9; 0x0A]%N.
Proof. split; vm_compute; reflexivity. Qed.

(** The scenario of a first save: the notebook [/proj/demo.ipynb] is
    exported to [/proj/.nbexports/demo.py]. *)
Example demo_scenario :
  let r := script_post_save Demo.dir_path Demo.host_lf Demo.python
             Demo.notebook Demo.demo_ipynb Demo.manager ∅ Demo.start in
  r.1 = inr ()
  ∧ FS.read (w_fs r.2) (lit "/proj/.nbexports/demo.py")
    = Some (lit "print(1)" ++ [10%N])
  ∧ FS.isdir (w_fs r.2) (lit "/proj/.nbexports") = true.
Proof. vm_compute. done. Qed.

(** C2, at the save of a plain file and at the save of a directory. *)
Lemma non_notebook_save_has_no_effect_witness :
  script_post_save Demo.dir_path Demo.host_lf Demo.python Demo.file
    (lit "/proj/notes.txt") Demo.manager ∅ Demo.start
  = (inr (), Demo.start)
  ∧ script_post_save Demo.dir_path Demo.host_lf Demo.python Demo.directory
      (lit "/proj/a") Demo.manager ∅ Demo.start
    = (inr (), Demo.start).
Proof.
  split.
  - apply (non_notebook_save_has_no_effect Demo.dir_path Demo.host_lf
             Demo.python Demo.file (lit "/proj/notes.txt") Demo.manager ∅
             Demo.start (lit "file")).
    + reflexivity.
    + vm_compute. discriminate.
  - apply (non_notebook_save_has_no_effect Demo.dir_path Demo.host_lf
             Demo.python Demo.directory (lit "/proj/a") Demo.manager ∅
             Demo.start (lit "directory")).
    + reflexivity.
    + vm_compute. discriminate.
Defined.

(** C1, at the notebook [a/b/Notebook.ipynb] under the root [/proj], with
    extension [.py]: the export is written to
    [/proj/.nbexports/a/b/Notebook.py]. *)
Lemma export_mirrors_notebook_path_witness :
  let r := script_post_save Demo.dir_path Demo.host_lf Demo.python
             Demo.notebook Demo.nested_ipynb Demo.manager ∅ Demo.start in
  r.1 = inr ()
  ∧ ∃ b, IO.encode UTF8 Demo.script = Some b
         ∧ FS.read (w_fs r.2) (lit "/proj/.nbexports/a/b/Notebook.py")
           = Some b.
Proof.
  cbv zeta.
  destruct (export_mirrors_notebook_path Demo.dir_path Demo.host_lf
              Demo.python Demo.notebook Demo.manager ∅ Demo.start
              (lit "a/b/Notebook.ipynb") (lit ".py") Demo.script
              {[ "output_extension" := lit ".py" ]})
    as (_ & Hread & Hok).
  - reflexivity.
  - unfold api_path. compute_done.
  - compute_done.
  - reflexivity.
  - reflexivity.
  - assert (Hr : (script_post_save Demo.dir_path Demo.host_lf Demo.python
                    Demo.notebook Demo.nested_ipynb Demo.manager ∅
                    Demo.start).1 = inr ()).
    { apply (Hok ltac:(unfold can_export, way_clear; repeat split;
                       compute_done)
               (lit "print(1)" ++ [10%N])).
      reflexivity. }
    split; [exact Hr|exact (Hread Hr)].
Defined.

(** C3, at two saves of [/proj/demo.ipynb] one after the other. *)
Lemma resave_leaves_export_identical_witness :
  let save :=
    script_post_save Demo.dir_path Demo.host_lf Demo.python Demo.notebook
      Demo.demo_ipynb Demo.manager ∅ in
  let w1 := (save Demo.start).2 in
  FS.read (w_fs w1) (lit "/proj/.nbexports/demo.py")
    = Some (lit "print(1)" ++ [10%N])
  ∧ ∃ w2, save w1 = (inr (), w2) ∧ w_fs w2 = w_fs w1.
Proof.
  cbv zeta.
  destruct (resave_leaves_export_identical Demo.dir_path Demo.host_lf
              Demo.python Demo.notebook Demo.demo_ipynb Demo.manager ∅
              Demo.start
              (script_post_save Demo.dir_path Demo.host_lf Demo.python
                 Demo.notebook Demo.demo_ipynb Demo.manager ∅ Demo.start).2
              Demo.script {[ "output_extension" := lit ".py" ]})
    as [_ Hagain].
  - reflexivity.
  - reflexivity.
  - vm_compute. reflexivity.
  - reflexivity.
  - split; [vm_compute; reflexivity|exact Hagain].
Defined.

(** C5, at an exporter whose resources name no extension and at one
    whose resources name [.py]: the first save of [/proj/demo.ipynb]
    returns, and the script is in [/proj/.nbexports/demo.txt] for the
    one, in [/proj/.nbexports/demo.py] for the other. *)
Lemma extension_from_resources_witness :
  let plain := script_post_save Demo.dir_path Demo.host_lf Demo.plain
                 Demo.notebook Demo.demo_ipynb Demo.manager ∅ Demo.start in
  let python := script_post_save Demo.dir_path Demo.host_lf Demo.python
                  Demo.notebook Demo.demo_ipynb Demo.manager ∅ Demo.start in
  (plain.1 = inr ()
   ∧ FS.read (w_fs plain.2) (lit "/proj/.nbexports/demo.txt")
     = Some (lit "print(1)" ++ [LF]))
  ∧ (python.1 = inr ()
     ∧ FS.read (w_fs python.2) (lit "/proj/.nbexports/demo.py")
       = Some (lit "print(1)" ++ [LF])).
Proof.
  cbv zeta. split.
  - refine (proj2 (extension_from_resources Demo.dir_path Demo.host_lf
                     Demo.plain Demo.notebook Demo.demo_ipynb Demo.manager
                     ∅ Demo.start Demo.script ∅ eq_refl eq_refl)
              _ (lit "print(1)" ++ [LF]) _).
    + unfold can_export, way_clear; repeat split; compute_done.
    + vm_compute. reflexivity.
  - refine (proj2 (extension_from_resources Demo.dir_path Demo.host_lf
                     Demo.python Demo.notebook Demo.demo_ipynb Demo.manager
                     ∅ Demo.start Demo.script
                     {[ "output_extension" := lit ".py" ]} eq_refl eq_refl)
              _ (lit "print(1)" ++ [LF]) _).
    + unfold can_export, way_clear; repeat split; compute_done.
    + vm_compute. reflexivity.
Defined.

(** C6, at the first save of [/proj/a/b/Notebook.ipynb]: none of
    [/proj/.nbexports], [/proj/.nbexports/a] and [/proj/.nbexports/a/b]
    is there before, all are directories after. *)
Lemma export_directory_made_witness :
  let r := script_post_save Demo.dir_path Demo.host_lf Demo.python
             Demo.notebook Demo.nested_ipynb Demo.manager ∅ Demo.start in
  FS.exists_ Demo.tree (lit "/proj/.nbexports") = false
  ∧ FS.isdir (w_fs r.2) (lit "/proj/.nbexports/a/b") = true
  ∧ Forall (λ k, FS.lookup (w_fs r.2) k = Some Dir)
      [[lit "proj"]; [lit "proj"; lit ".nbexports"];
       [lit "proj"; lit ".nbexports"; lit "a"];
       [lit "proj"; lit ".nbexports"; lit "a"; lit "b"]].
Proof.
  cbv zeta.
  destruct (export_directory_made Demo.dir_path Demo.host_lf Demo.python
              Demo.notebook Demo.nested_ipynb Demo.manager ∅ Demo.start
              Demo.script {[ "output_extension" := lit ".py" ]})
    as (Hmade & Hchain & _).
  - reflexivity.
  - reflexivity.
  - assert (Hclear : way_clear (w_fs Demo.start)
                       (lit "/proj/.nbexports/a/b")).
    { unfold way_clear. repeat split; compute_done. }
    destruct (Hmade (or_introl Hclear)) as (_ & _ & Hdir & _).
    split; [reflexivity|]. split; [exact Hdir|exact (Hchain Hclear)].
Defined.

(** C7, at an exporter that raises and at a tree in which a regular file
    stands where [.nbexports] should be. *)
Lemma failures_propagate_witness :
  (script_post_save Demo.dir_path Demo.host_lf Demo.broken Demo.notebook
     Demo.demo_ipynb Demo.manager ∅ Demo.start).1 = inl (Raised 1)
  ∧ (script_post_save Demo.dir_path Demo.host_lf Demo.python Demo.notebook
       Demo.demo_ipynb Demo.manager ∅ Demo.blocked).1
    = inl (OSError EEXIST).
Proof.
  split.
  - destruct (failures_propagate Demo.dir_path Demo.host_lf Demo.broken
                Demo.notebook Demo.demo_ipynb Demo.manager ∅ Demo.start
                eq_refl) as [Hconv _].
    exact (proj1 (Hconv (Raised 1) eq_refl)).
  - destruct (failures_propagate Demo.dir_path Demo.host_lf Demo.python
                Demo.notebook Demo.demo_ipynb Demo.manager ∅ Demo.blocked
                eq_refl) as [_ Hlater].
    destruct (Hlater Demo.script {[ "output_extension" := lit ".py" ]}
                eq_refl) as (Hmk & _).
    refine (proj1 (Hmk (OSError EEXIST) (w_fs Demo.blocked) _)).
    vm_compute. reflexivity.
Defined.

(** C8 as amended, at the first save of [/proj/demo.ipynb]. *)
Lemma export_logs_destination_witness :
  let w' := (script_post_save Demo.dir_path Demo.host_lf Demo.python
               Demo.notebook Demo.demo_ipynb Demo.manager ∅ Demo.start).2 in
  let logged := LogInfo 7 (lit "Saving script /%s")
                  [lit "/proj/.nbexports/demo.py"] in
  List.filter is_log (drop (length (w_trace Demo.start)) (w_trace w'))
    = [logged]
  ∧ message logged = Some (lit "Saving script //proj/.nbexports/demo.py").
Proof.
  cbv zeta.
  destruct (export_logs_destination Demo.dir_path Demo.host_lf Demo.python
              Demo.notebook Demo.demo_ipynb Demo.manager ∅ Demo.start
              (script_post_save Demo.dir_path Demo.host_lf Demo.python
                 Demo.notebook Demo.demo_ipynb Demo.manager ∅ Demo.start).2
              Demo.script {[ "output_extension" := lit ".py" ]})
    as (_ & Hone & Hmsg).
  - reflexivity.
  - reflexivity.
  - vm_compute. reflexivity.
  - split; [exact Hone|exact Hmsg].
Defined.

(** C8 as stated fails: the text logged for the export of
    [/proj/demo.ipynb] is not the path of the export file. *)
Lemma log_text_is_not_the_bare_path :
  let r := script_post_save Demo.dir_path Demo.host_lf Demo.python
             Demo.notebook Demo.demo_ipynb Demo.manager ∅ Demo.start in
  let target := export_target Demo.dir_path (root_dir Demo.manager)
                  Demo.demo_ipynb (lit ".py") in
  r.1 = inr ()
  ∧ target = lit "/proj/.nbexports/demo.py"
  ∧ ∃ ev, ev ∈ w_trace r.2 ∧ is_log ev = true
          ∧ message ev = Some (lit "Saving script //proj/.nbexports/demo.py")
          ∧ message ev ≠ Some target.
Proof.
  cbv zeta. split; [vm_compute; reflexivity|].
  split; [vm_compute; reflexivity|].
  exists (LogInfo 7 (lit "Saving script /%s")
            [lit "/proj/.nbexports/demo.py"]).
  split; [|split; [|split]].
  - compute_done.
  - reflexivity.
  - vm_compute. reflexivity.
  - vm_compute. discriminate.
Qed.

(** C9, at an exporter that raises: the tree is untouched, and the
    construction and the conversion are the only calls. *)
Lemma failed_conversion_leaves_tree_witness :
  let r := script_post_save Demo.dir_path Demo.host_lf Demo.broken
             Demo.notebook Demo.demo_ipynb Demo.manager ∅ Demo.start in
  w_fs r.2 = Demo.tree
  ∧ w_trace r.2 =
      [Construct Demo.manager;
       FromFilename (new_exporter Demo.dir_path Demo.manager)
         Demo.demo_ipynb].
Proof.
  cbv zeta.
  destruct (failed_conversion_leaves_tree Demo.dir_path Demo.host_lf
              Demo.broken Demo.notebook Demo.demo_ipynb Demo.manager ∅
              Demo.start eq_refl) as [Hfail _].
  exact (Hfail (Raised 1) eq_refl).
Defined.

(** C10, at a host that prefers Latin-1 and ends lines with carriage
    return and line feed. *)
Lemma export_is_utf8_with_line_feeds_witness :
  let save host :=
    script_post_save Demo.dir_path host Demo.python Demo.notebook
      Demo.demo_ipynb Demo.manager ∅ Demo.start in
  FS.read (w_fs (save Demo.host_crlf).2) (lit "/proj/.nbexports/demo.py")
    = IO.encode UTF8 Demo.script
  ∧ save Demo.host_lf = save Demo.host_crlf.
Proof.
  cbv zeta.
  destruct (export_is_utf8_with_line_feeds Demo.dir_path Demo.host_crlf
              Demo.python Demo.notebook Demo.demo_ipynb Demo.manager ∅
              Demo.start
              (script_post_save Demo.dir_path Demo.host_crlf Demo.python
                 Demo.notebook Demo.demo_ipynb Demo.manager ∅ Demo.start).2
              Demo.script {[ "output_extension" := lit ".py" ]})
    as (_ & (b & Henc & Hread) & Hhost).
  - reflexivity.
  - reflexivity.
  - vm_compute. reflexivity.
  - split.
    + rewrite Henc. exact Hread.
    + rewrite (Hhost Demo.host_lf). vm_compute. reflexivity.
Defined.

(** * Further properties of the hook and of what it calls *)

(** ** The save event *)

(** X1: a save whose model has no "type" entry makes the hook raise
    [KeyError] for that key, before anything else is done: the world is as
    it was. *)
Theorem missing_type_raises_key_error dir_path host from_filename model
    os_path cm kwargs w :
  model !! "type" = None →
  script_post_save dir_path host from_filename model os_path cm kwargs w
  = (inl (KeyError "type"), w).
Proof.
  intros Hty. unfold script_post_save, getitem, bind. by rewrite Hty.
Qed.

Lemma missing_type_raises_key_error_witness :
  script_post_save Demo.dir_path Demo.host_lf Demo.python ∅ Demo.demo_ipynb
    Demo.manager ∅ Demo.start
  = (inl (KeyError "type"), Demo.start).
Proof.
  apply (missing_type_raises_key_error Demo.dir_path Demo.host_lf
           Demo.python ∅ Demo.demo_ipynb Demo.manager ∅ Demo.start).
  reflexivity.
Defined.

(** X2: of the model the hook reads the type and nothing else, and the
    keyword arguments it only forwards: two save events with the same type,
    path and contents manager, whose keyword arguments can be forwarded to
    [export_script], end alike, whatever else their models and keyword
    arguments hold. The export is made from the file at [os_path], not
    from the content the model carries. *)
Theorem hook_reads_only_the_type dir_path host from_filename model model'
    os_path cm kwargs kwargs' w :
  model !! "type" = model' !! "type" →
  forwardable kwargs → forwardable kwargs' →
  script_post_save dir_path host from_filename model os_path cm kwargs w
  = script_post_save dir_path host from_filename model' os_path cm kwargs' w.
Proof.
  intros Hty _ _. unfold script_post_save, getitem, bind. rewrite Hty.
  destruct (model' !! "type") as [type|]; [|done]. cbn [ret].
  destruct (decide (type ≠ lit "notebook")); done.
Qed.

Lemma hook_reads_only_the_type_witness :
  script_post_save Demo.dir_path Demo.host_lf Demo.python Cases.full_notebook
    Demo.demo_ipynb Demo.manager {[ "path" := lit "demo.ipynb" ]} Demo.start
  = script_post_save Demo.dir_path Demo.host_lf Demo.python Demo.notebook
      Demo.demo_ipynb Demo.manager ∅ Demo.start.
Proof.
  apply (hook_reads_only_the_type Demo.dir_path Demo.host_lf Demo.python
           Cases.full_notebook Demo.notebook Demo.demo_ipynb Demo.manager
           {[ "path" := lit "demo.ipynb" ]} ∅ Demo.start).
  - vm_compute. reflexivity.
  - unfold forwardable, export_script_params.
    repeat constructor; vm_compute; reflexivity.
  - unfold forwardable, export_script_params.
    repeat constructor; vm_compute; reflexivity.
Defined.

(** ** The export path *)

Lemma split_parts_free (c : char) (s : pystr) :
  Forall (λ f, c ∉ f) (Str.split c s).
Proof.
  induction s as [|x s IH]; [repeat constructor; apply not_elem_of_nil|].
  cbn. destruct (decide (x = c)) as [->|Hx].
  - constructor; [apply not_elem_of_nil|done].
  - destruct (Str.split c s) as [|f fs]; [repeat constructor|].
    + apply not_elem_of_cons. split; [done|apply not_elem_of_nil].
    + apply Forall_cons in IH as [Hf Hfs]. constructor; [|done].
      apply not_elem_of_cons. by split.
Qed.

(** Splitting undoes joining. *)
Lemma split_join (c : char) (parts : list pystr) :
  parts ≠ [] → Forall (λ f, c ∉ f) parts →
  Str.split c (Str.join [c] parts) = parts.
Proof.
  induction parts as [|p ps IH]; [done|]. intros _ [Hp Hps]%Forall_cons.
  destruct ps as [|q ps]; [by apply split_sep_free|].
  change (Str.join [c] (p :: q :: ps))
    with (p ++ c :: Str.join [c] (q :: ps)).
  rewrite split_app, (split_sep_free _ _ Hp), IH by done. done.
Qed.

(** What [to_api_path] returns is empty or an API path. *)
Lemma to_api_path_normal (os_path root : pystr) :
  to_api_path os_path root = [] ∨ api_path (to_api_path os_path root).
Proof.
  unfold to_api_path.
  set (y := Str.strip sep _).
  set (parts := filter (λ p : pystr, p ≠ []) (Str.split sep y)).
  assert (Hne : Forall (λ p : pystr, p ≠ []) parts).
  { apply Forall_forall. intros p Hp. unfold parts in Hp.
    by apply list_elem_of_filter in Hp as [? _]. }
  assert (Hfree : Forall (λ p : pystr, sep ∉ p) parts).
  { apply Forall_forall. intros p Hp. unfold parts in Hp.
    apply list_elem_of_filter in Hp as [_ Hp].
    by apply (proj1 (Forall_forall _ _) (split_parts_free sep y)). }
  destruct parts as [|p ps] eqn:Hparts; [by left|]. right.
  unfold api_path. change (lit "/") with [sep].
  by rewrite split_join.
Qed.

Lemma nbexports_target_shape dir_path root os_path ext :
  export_target dir_path root os_path ext
  = nbexports_path dir_path
      ++ sep :: to_api_path ((Path.splitext os_path).1 ++ ext) root
  ∧ (to_api_path ((Path.splitext os_path).1 ++ ext) root = []
     ∨ api_path (to_api_path ((Path.splitext os_path).1 ++ ext) root)).
Proof.
  split; [|apply to_api_path_normal].
  unfold export_target. apply join_nbexports.
  destruct (to_api_path_normal ((Path.splitext os_path).1 ++ ext) root)
    as [->|Hq]; [done|by apply api_path_head].
Qed.

(** X3: whatever the saved path, the storage root and the extension, the
    export path is the module's [nbexports_path], a separator, and a
    relative path that is empty or made of non-empty names with single
    separators: no absolute path and no doubled separator in the saved path
    can make [os.path.join] drop the export root. *)
Theorem export_path_under_nbexports dir_path root os_path ext :
  let q := to_api_path ((Path.splitext os_path).1 ++ ext) root in
  export_target dir_path root os_path ext
  = nbexports_path dir_path ++ sep :: q
  ∧ (q = [] ∨ api_path q).
Proof. cbv zeta. apply nbexports_target_shape. Qed.

(** A path with a separator has a directory name. *)
Lemma dirname_not_nil (p : pystr) : sep ∈ p → Path.dirname p ≠ [].
Proof.
  intros Hin. unfold Path.dirname.
  set (h := Str.upto p (Str.rfind sep p + 1)).
  assert (Hh : h ≠ []).
  { assert (Hlen : (0 < length p)%nat).
    { destruct p; [by apply elem_of_nil in Hin|cbn; lia]. }
    unfold h, Str.upto. intros Hnil%(f_equal length).
    rewrite length_take in Hnil. cbn [length] in Hnil.
    pose proof (rfind_lower sep p).
    destruct (decide (Str.rfind sep p = -1)) as [Hr|Hr]; [|lia].
    destruct (dir_part_name p) as (_ & Hfree & _).
    rewrite Hr in Hfree. unfold Str.from in Hfree.
    change (Z.to_nat (-1 + 1)) with 0%nat in Hfree.
    by rewrite drop_0 in Hfree. }
  rewrite bool_decide_eq_true_2 by done. cbn [andb].
  destruct (decide (h = Str.times sep (length h))) as [Heq|Hne].
  - by rewrite bool_decide_eq_false_2 by (by intros H; apply H).
  - rewrite bool_decide_eq_true_2 by done.
    intros Hnil%rstrip_nil. done.
Qed.

Lemma export_target_dirname dir_path root os_path ext :
  Path.dirname (export_target dir_path root os_path ext) ≠ [].
Proof.
  destruct (nbexports_target_shape dir_path root os_path ext)
    as [-> _].
  apply dirname_not_nil. apply elem_of_app. right. apply list_elem_of_here.
Qed.

(** ** Failures of the export *)

Lemma isdir_dirname (fs : FS.t) (p : pystr) :
  FS.isdir fs p = true → Path.dirname p ≠ [] →
  FS.isdir fs (Path.dirname p) = true.
Proof.
  intros (k & Hp & Hw & Hl)%isdir_inv Hd.
  rewrite dirname_split in *.
  destruct (Path.split p) as [d t] eqn:Hs. cbn [fst] in *.
  destruct (split_spec _ _ _ Hs) as (Ht & Hc & Habs & _ & _ & _).
  rewrite Hc, walk_app in Hw.
  destruct (FS.walk fs (FS.start fs p) (FS.components d))
    as [e|k1] eqn:Hw1; [done|].
  apply (isdir_intro _ _ k1); [done|unfold FS.start; by rewrite (Habs Hd)|].
  rewrite (components_name t Ht) in Hw.
  destruct (decide (t = [])) as [_|_]; cbn in Hw.
  - by injection Hw as ->.
  - destruct (FS.step fs k1 t) as [e|k2] eqn:Hst; [done|].
    by apply step_inr in Hst as [? _].
Qed.

Lemma open_w_isdir (fs : FS.t) (p : pystr) :
  FS.isdir fs p = true → FS.open_w fs p = inl EISDIR.
Proof.
  unfold FS.isdir, FS.stat, FS.open_w.
  destruct (FS.resolve fs p) as [e|k]; [done|].
  by destruct (FS.lookup fs k) as [[b|]|].
Qed.

Section MoreHookFacts.

Variable dir_path : pystr.
Variable host : platform.
Variable from_filename :
  Exporter → FS.t → pystr → exn + (pystr * gmap string pystr).

Local Abbreviation hook := (script_post_save dir_path host from_filename).
Local Abbreviation run := (process dir_path host from_filename).

(** X4: when the script cannot be encoded (it holds a lone surrogate, say)
    the hook raises [UnicodeEncodeError] after the file has been opened
    for writing: the export file is left empty, whatever it held before. *)
Theorem unencodable_script_empties_export model os_path cm kwargs w script
    resources :
  model !! "type" = Some (lit "notebook") →
  let x := exporter_in_use dir_path cm w in
  from_filename x (w_fs w) os_path = inr (script, resources) →
  let ext := default (lit ".txt") (resources !! "output_extension") in
  let target := export_target dir_path (root_dir cm) os_path ext in
  can_export (w_fs w) target →
  IO.encode UTF8 script = None →
  let r := hook model os_path cm kwargs w in
  r.1 = inl UnicodeEncodeError
  ∧ FS.read (w_fs r.2) target = Some []
  ∧ last (w_trace r.2)
    = Some (Write (FS.start (w_fs w) target ++ FS.components target) script).
Proof.
  intros Hty x Hconv. subst x. cbv zeta. intros Hcan Henc.
  rewrite notebook_save_run by done. rewrite Hconv. cbv zeta.
  rewrite makedirs_creates by apply Hcan.
  destruct (can_export_target _ _ Hcan) as [Hopen _]. cbv zeta in Hopen.
  rewrite Hopen, Henc. cbn [fst snd]. split; [done|]. split.
  - destruct (open_w_read _ _ _ _ [] Hopen) as (Hread & _ & _).
    by rewrite append_opened in Hread.
  - unfold with_calls. cbn [w_trace].
    rewrite !app_assoc. change [?a; ?b; ?c; ?d] with ([a; b; c] ++ [d]).
    by rewrite !app_assoc, last_snoc.
Qed.

(** X5: when a directory has the name of the export file, the hook raises
    [IsADirectoryError] from [io.open]; by then the "Saving script" line
    has been logged, and the tree is as it was. *)
Theorem export_onto_directory_raises model os_path cm kwargs w script
    resources :
  model !! "type" = Some (lit "notebook") →
  let x := exporter_in_use dir_path cm w in
  from_filename x (w_fs w) os_path = inr (script, resources) →
  let ext := default (lit ".txt") (resources !! "output_extension") in
  let target := export_target dir_path (root_dir cm) os_path ext in
  FS.isdir (w_fs w) target = true →
  hook model os_path cm kwargs w =
    (inl (OSError EISDIR),
     with_calls w (w_fs w) (Some x)
       (construction cm w
          ++ [FromFilename x os_path; Makedirs (Path.dirname target) true;
              LogInfo (log cm) (lit "Saving script /%s") [target];
              Open target (Some (lit "utf-8")) (Some [LF])])).
Proof.
  intros Hty x Hconv. subst x. cbv zeta. intros Hdir.
  rewrite notebook_save_run by done. rewrite Hconv. cbv zeta.
  rewrite makedirs_existing
    by (apply isdir_dirname; [done|apply export_target_dirname]).
  rewrite open_w_isdir by done.
  f_equal. unfold with_calls. f_equal. by trace_eq.
Qed.

End MoreHookFacts.

(** ** A regular file on the way *)

Lemma walk_through_file (fs : FS.t) (cur pre : list pystr) (c x : pystr)
    (rest : list pystr) (b : bytes) :
  Forall regular pre → regular c →
  FS.lookup fs cur = Some Dir →
  Forall (λ k, FS.lookup fs k = Some Dir) (chain cur pre) →
  FS.lookup fs (cur ++ pre ++ [c]) = Some (File b) →
  FS.walk fs cur (pre ++ c :: x :: rest) = inl ENOTDIR.
Proof.
  intros Hpre [Hc1 Hc2] Hcur Hch Hf.
  destruct (walk_chain fs cur pre Hpre Hcur Hch) as [Hw Hl].
  rewrite walk_app, Hw. cbn [FS.walk]. unfold FS.step at 1. rewrite Hl.
  rewrite !decide_False by done.
  unfold FS.step. by rewrite <- app_assoc, Hf.
Qed.

Lemma walk_to_file (fs : FS.t) (cur pre : list pystr) (c : pystr) :
  Forall regular pre → regular c →
  FS.lookup fs cur = Some Dir →
  Forall (λ k, FS.lookup fs k = Some Dir) (chain cur pre) →
  FS.walk fs cur (pre ++ [c]) = inr (cur ++ pre ++ [c]).
Proof.
  intros Hpre [Hc1 Hc2] Hcur Hch.
  destruct (walk_chain fs cur pre Hpre Hcur Hch) as [Hw Hl].
  rewrite walk_app, Hw. cbn [FS.walk]. unfold FS.step. rewrite Hl.
  rewrite !decide_False by done. by rewrite <- app_assoc.
Qed.

Lemma makedirs_rec_blocked n : ∀ (name : pystr) (fs : FS.t)
    (pre : list pystr) (c : pystr) (post : list pystr) (b : bytes),
  (length name < n)%nat →
  FS.components name = pre ++ c :: post →
  Forall regular (FS.components name) →
  FS.lookup fs (FS.start fs name) = Some Dir →
  Forall (λ k, FS.lookup fs k = Some Dir) (chain (FS.start fs name) pre) →
  FS.lookup fs (FS.start fs name ++ pre ++ [c]) = Some (File b) →
  makedirs_rec n name true fs =
    (inl (OSError (if decide (post = []) then EEXIST else ENOTDIR)), fs).
Proof.
  induction n as [|n IH]; intros name fs pre c post b Hn Hc Hreg Hst Hch Hf;
    [lia|].
  assert (name ≠ []) as Hne
    by (intros ->; rewrite components_nil in Hc; by destruct pre).
  cbn [makedirs_rec]. unfold makedirs_body.
  destruct (let '(h, t) := Path.split name in
            if decide (t = []) then Path.split h else (h, t))
    as [head tail] eqn:Hs.
  destruct (makedirs_split_spec _ _ _ Hs)
    as (Ht & Hcs & Habs & Hlen & Hlast & Hnil).
  assert (Path.split name = ((Path.split name).1, (Path.split name).2)) as Hsp
    by (by destruct (Path.split name)).
  rewrite Hsp in Hs |- *. rewrite Hs. clear Hsp Hs.
  destruct (decide (tail = [])) as [->|Htl].
  { rewrite Hnil in Hc by done. by destruct pre. }
  rewrite (components_name tail Ht), decide_False in Hcs by done.
  assert (∀ e, FS.mkdir fs name = inl e →
               FS.isdir fs name = false →
               mkdir_or_exists name true fs = (inl (OSError e), fs)) as Hmk.
  { intros e He Hd. unfold mkdir_or_exists. by rewrite He, Hd. }
  assert (regular c) as Hrc.
  { rewrite Hc in Hreg. apply Forall_app in Hreg as [_ Hreg].
    by apply Forall_cons in Hreg as [? _]. }
  assert (Forall regular pre) as Hrpre.
  { rewrite Hc in Hreg. by apply Forall_app in Hreg as [? _]. }
  destruct (decide (post = [])) as [->|Hpost].
  - (* the file has the name of the directory to make *)
    rewrite Hc in Hcs. apply app_inj_tail in Hcs as [Hpre <-].
    assert (FS.walk fs (FS.start fs name) (FS.components name)
            = inr (FS.start fs name ++ pre ++ [c])) as Hw
      by (rewrite Hc; by apply walk_to_file).
    assert (FS.exists_ fs head = true ∨ head = []) as Hex.
    { destruct (decide (head = [])) as [|Hh]; [by right|left].
      apply (exists_intro _ _ (FS.start fs name ++ pre)); [done| |].
      - unfold FS.start. rewrite (Habs Hh). fold (FS.start fs name).
        rewrite <- Hpre. by apply walk_chain.
      - by apply walk_chain. }
    assert (bool_decide (head ≠ []) && bool_decide (c ≠ [])
              && negb (FS.exists_ fs head) = false) as ->.
    { destruct Hex as [->| ->]; [by rewrite andb_false_r|].
      by rewrite bool_decide_eq_false_2 by (by intros []). }
    apply Hmk.
    + unfold FS.mkdir. rewrite decide_False by done. by rewrite Hw, Hf.
    + destruct (FS.isdir fs name) eqn:Hd; [|done].
      apply isdir_inv in Hd as (k & _ & Hk & Hl).
      rewrite Hw in Hk. injection Hk as <-. by rewrite Hf in Hl.
  - (* the file has the name of a directory further up *)
    destruct post as [|x post0 _] using rev_ind; [done|].
    rewrite Hc in Hcs.
    change (pre ++ c :: post0 ++ [x]) with (pre ++ (c :: post0) ++ [x])
      in Hcs.
    rewrite app_assoc in Hcs. apply app_inj_tail in Hcs as [Hpre <-].
    assert (head ≠ []) as Hh
      by (intros ->; rewrite components_nil in Hpre; by destruct pre).
    assert (FS.start fs head = FS.start fs name) as Hsh
      by (unfold FS.start; by rewrite (Habs Hh)).
    assert (FS.mkdir fs name = inl ENOTDIR) as Hmkdir.
    { unfold FS.mkdir. rewrite decide_False by done. rewrite Hc.
      destruct post0 as [|y post0]; cbn [app];
        by rewrite (walk_through_file fs _ pre c _ _ b). }
    assert (FS.isdir fs name = false) as Hdir.
    { destruct (FS.isdir fs name) eqn:Hd; [|done].
      apply isdir_inv in Hd as (k & _ & Hk & Hl).
      rewrite Hc in Hk.
      destruct post0 as [|y post0]; cbn [app] in Hk;
        by rewrite (walk_through_file fs _ pre c _ _ b) in Hk. }
    destruct post0 as [|y post0].
    + (* the parent is the file *)
      assert (FS.exists_ fs head = true) as ->.
      { unfold FS.exists_, FS.stat.
        assert (FS.resolve fs head = inr (FS.start fs name ++ pre ++ [c]))
          as ->.
        { apply resolve_inr. split; [done|]. split.
          - rewrite Hsh, <- Hpre. by apply walk_to_file.
          - intros He. unfold Str.endswith in He.
            apply bool_decide_eq_true in He. apply Hlast in He.
            rewrite <- Hpre in He. by destruct pre. }
        by rewrite Hf. }
      rewrite andb_false_r. by apply Hmk.
    + (* the parent cannot be reached *)
      assert (FS.exists_ fs head = false) as ->.
      { unfold FS.exists_, FS.stat, FS.resolve, FS.names.
        rewrite decide_False by done. rewrite Hsh, <- Hpre.
        rewrite <- app_assoc. cbn [app].
        by rewrite (walk_through_file fs _ pre c _ _ b). }
      rewrite !bool_decide_eq_true_2 by done. cbn [andb negb].
      assert (Forall regular (FS.components head)) as Hregh.
      { rewrite Hc in Hreg.
        change (pre ++ c :: (y :: post0) ++ [x])
          with (pre ++ (c :: y :: post0) ++ [x]) in Hreg.
        rewrite app_assoc in Hreg. apply Forall_app in Hreg as [Hreg _].
        by rewrite <- Hpre. }
      specialize (Hlen Htl).
      rewrite (IH head fs pre c (y :: post0) b);
        [done|lia|done|done|by rewrite Hsh|by rewrite Hsh|by rewrite Hsh].
Qed.

Lemma makedirs_blocked (name : pystr) (fs : FS.t) (pre : list pystr)
    (c : pystr) (post : list pystr) (b : bytes) :
  FS.components name = pre ++ c :: post →
  Forall regular (FS.components name) →
  FS.lookup fs (FS.start fs name) = Some Dir →
  Forall (λ k, FS.lookup fs k = Some Dir) (chain (FS.start fs name) pre) →
  FS.lookup fs (FS.start fs name ++ pre ++ [c]) = Some (File b) →
  makedirs name true fs =
    (inl (OSError (if decide (post = []) then EEXIST else ENOTDIR)), fs).
Proof. intros. unfold makedirs. eapply makedirs_rec_blocked; eauto. Qed.

(** ** What [os.makedirs] and the export leave alone *)

Lemma entries_kept_refl (fs : FS.t) : entries_kept fs fs.
Proof. by split. Qed.

Lemma entries_kept_trans (fs1 fs2 fs3 : FS.t) :
  entries_kept fs1 fs2 → entries_kept fs2 fs3 → entries_kept fs1 fs3.
Proof.
  intros [Hc1 Hn1] [Hc2 Hn2]. split; [congruence|].
  intros k nd Hk. by apply Hn2, Hn1.
Qed.

Lemma mkdir_or_exists_keeps (name : pystr) (exist_ok : bool) (fs : FS.t) :
  entries_kept fs (mkdir_or_exists name exist_ok fs).2.
Proof.
  unfold mkdir_or_exists.
  destruct (FS.mkdir fs name) as [e|fs'] eqn:Hmk.
  - destruct (negb exist_ok || negb (FS.isdir fs name));
      apply entries_kept_refl.
  - cbn [snd]. unfold FS.mkdir in Hmk.
    destruct (decide (name = [])); [done|].
    destruct (FS.walk fs (FS.start fs name) (FS.components name))
      as [e|k0]; [done|].
    destruct (FS.lookup fs k0) as [nd0|] eqn:Hl; [done|].
    injection Hmk as <-. split; [done|]. intros k nd Hk. cbn [FS.nodes].
    rewrite lookup_insert_ne; [done|]. intros <-.
    destruct k0 as [|c k0]; [done|]. cbn in Hl. congruence.
Qed.

Lemma makedirs_rec_keeps n : ∀ (name : pystr) (exist_ok : bool) (fs : FS.t),
  entries_kept fs (makedirs_rec n name exist_ok fs).2.
Proof.
  induction n as [|n IH]; intros name exist_ok fs;
    [apply entries_kept_refl|].
  cbn [makedirs_rec]. unfold makedirs_body.
  destruct (Path.split name) as [h0 t0].
  destruct (if decide (t0 = []) then Path.split h0 else (h0, t0))
    as [head tail].
  destruct (bool_decide (head ≠ []) && bool_decide (tail ≠ [])
            && negb (FS.exists_ fs head));
    [|apply mkdir_or_exists_keeps].
  pose proof (IH head exist_ok fs) as Hk.
  destruct (makedirs_rec n head exist_ok fs) as [r fs1]. cbn [snd] in Hk.
  assert (entries_kept fs
            (if decide (tail = FS.curdir) then (inr (), fs1)
             else mkdir_or_exists name exist_ok fs1).2) as Hgo.
  { destruct (decide (tail = FS.curdir)); [done|].
    eapply entries_kept_trans; [done|apply mkdir_or_exists_keeps]. }
  destruct r as [[| [] | | | | | |]|]; done.
Qed.

Lemma open_w_keeps (fs : FS.t) (p : pystr) (k : list pystr) (fs' : FS.t)
    (b : bytes) :
  FS.open_w fs p = inr (k, fs') →
  FS.nodes fs !! k ≠ Some Dir
  ∧ FS.cwd (FS.append fs' k b) = FS.cwd fs
  ∧ ∀ k', k' ≠ k →
      FS.nodes fs' !! k' = FS.nodes fs !! k'
      ∧ FS.nodes (FS.append fs' k b) !! k' = FS.nodes fs !! k'.
Proof.
  unfold FS.open_w. destruct (FS.resolve fs p) as [e|k0]; [done|].
  intros Hopen.
  assert (FS.lookup fs k0 ≠ Some Dir
          ∧ k = k0 ∧ fs' = FS.mk (<[k0 := File []]> (FS.nodes fs)) (FS.cwd fs))
    as (Hl & -> & ->).
  { destruct (FS.lookup fs k0) as [[?|]|]; by simplify_eq. }
  clear Hopen. rewrite append_opened. cbn [FS.nodes FS.cwd].
  split; [|split; [done|]].
  - destruct k0; [done|]. exact Hl.
  - intros k' Hk'. by rewrite !lookup_insert_ne.
Qed.

Section SavesFacts.

Variable dir_path : pystr.
Variable host : platform.
Variable from_filename :
  Exporter → FS.t → pystr → exn + (pystr * gmap string pystr).

Local Abbreviation hook := (script_post_save dir_path host from_filename).
Local Abbreviation run := (process dir_path host from_filename).

(** X6: when a regular file has the name of a directory that the export
    needs, the hook raises from [os.makedirs] before anything is logged
    or written: [FileExistsError] when the file has the name of the export
    directory itself, [NotADirectoryError] when it lies further up; the
    tree is as it was. *)
Theorem file_in_the_way_raises model os_path cm kwargs w script resources
    (pre : list pystr) (c : pystr) (post : list pystr) (b : bytes) :
  model !! "type" = Some (lit "notebook") →
  let x := exporter_in_use dir_path cm w in
  from_filename x (w_fs w) os_path = inr (script, resources) →
  let ext := default (lit ".txt") (resources !! "output_extension") in
  let d := Path.dirname (export_target dir_path (root_dir cm) os_path ext) in
  let top := FS.start (w_fs w) d in
  FS.components d = pre ++ c :: post →
  Forall regular (FS.components d) →
  FS.lookup (w_fs w) top = Some Dir →
  Forall (λ k, FS.lookup (w_fs w) k = Some Dir) (chain top pre) →
  FS.lookup (w_fs w) (top ++ pre ++ [c]) = Some (File b) →
  hook model os_path cm kwargs w =
    (inl (OSError (if decide (post = []) then EEXIST else ENOTDIR)),
     with_calls w (w_fs w) (Some x)
       (construction cm w ++ [FromFilename x os_path; Makedirs d true])).
Proof.
  intros Hty x Hconv. subst x. cbv zeta. intros Hc Hreg Htop Hch Hf.
  rewrite notebook_save_run by done. rewrite Hconv. cbv zeta.
  rewrite (makedirs_blocked _ _ pre c post b) by done.
  f_equal. unfold with_calls. f_equal. by trace_eq.
Qed.

(** One save: the calls it adds, and what it leaves of the tree. *)
Lemma save_keeps_entries model os_path cm kwargs w :
  let w' := (hook model os_path cm kwargs w).2 in
  FS.cwd (w_fs w') = FS.cwd (w_fs w)
  ∧ ∃ evs,
      w_trace w' = w_trace w ++ evs
      ∧ ∀ k nd, FS.nodes (w_fs w) !! k = Some nd →
          FS.nodes (w_fs w') !! k = Some nd
          ∨ ∃ b text, nd = File b ∧ Write k text ∈ evs.
Proof.
  cbv zeta. destruct (is_notebook model) eqn:Hnb.
  2:{ rewrite other_save_world by done. split; [done|].
      exists []. rewrite app_nil_r. split; [done|]. by left. }
  apply bool_decide_eq_true in Hnb.
  rewrite notebook_save_run by done. cbv zeta.
  destruct (from_filename _ (w_fs w) os_path) as [e|[script resources]].
  { cbn [snd with_calls w_fs w_trace]. split; [done|].
    eexists. split; [done|]. by left. }
  set (target := export_target _ _ _ _).
  pose proof (makedirs_rec_keeps (S (length (Path.dirname target)))
                (Path.dirname target) true (w_fs w)) as [Hcwd Hkept].
  fold (makedirs (Path.dirname target) true) in Hcwd, Hkept.
  destruct (makedirs (Path.dirname target) true (w_fs w)) as [[e|[]] fs1];
    cbn [snd] in Hcwd, Hkept.
  { cbn [snd with_calls w_fs w_trace]. split; [done|].
    eexists. split; [done|]. left. by apply Hkept. }
  destruct (FS.open_w fs1 target) as [e|[k0 fs2]] eqn:Hopen.
  { cbn [snd with_calls w_fs w_trace]. split; [done|].
    eexists. split; [done|]. left. by apply Hkept. }
  assert (∀ fs3,
    FS.cwd fs3 = FS.cwd fs1 →
    (∀ k', k' ≠ k0 → FS.nodes fs3 !! k' = FS.nodes fs1 !! k') →
    ∀ evs0,
    let w' := with_calls w fs3 (Some (exporter_in_use dir_path cm w))
                (evs0 ++ [Write k0 script]) in
    FS.cwd (w_fs w') = FS.cwd (w_fs w)
    ∧ ∃ evs,
        w_trace w' = w_trace w ++ evs
        ∧ ∀ k nd, FS.nodes (w_fs w) !! k = Some nd →
            FS.nodes (w_fs w') !! k = Some nd
            ∨ ∃ b text, nd = File b ∧ Write k text ∈ evs) as Hwr.
  { intros fs3 Hc3 Hn3 evs0. cbn [with_calls w_fs w_trace].
    split; [congruence|]. eexists. split; [done|]. intros k nd Hk.
    destruct (decide (k = k0)) as [->|Hne].
    - right. apply Hkept in Hk.
      destruct (open_w_keeps _ _ _ _ [] Hopen) as (Hnd & _ & _).
      destruct nd as [b|]; [|done].
      exists b, script. split; [done|].
      apply elem_of_app. right. apply list_elem_of_here.
    - left. rewrite Hn3 by done. by apply Hkept. }
  destruct (IO.encode UTF8 script) as [b|]; cbn [snd].
  - destruct (open_w_keeps _ _ _ _ b Hopen) as (_ & Hc3 & Hn3).
    change [?e1; ?e2; ?e3; ?e4] with ([e1; e2; e3] ++ [e4]).
    rewrite app_assoc. apply Hwr; [done|]. intros k' Hk'.
    by apply Hn3.
  - destruct (open_w_keeps _ _ _ _ [] Hopen) as (_ & Hc3 & Hn3).
    change [?e1; ?e2; ?e3; ?e4] with ([e1; e2; e3] ++ [e4]).
    rewrite app_assoc. apply Hwr.
    + rewrite <- Hc3. unfold FS.open_w in Hopen.
      destruct (FS.resolve fs1 target); [done|].
      by destruct (FS.lookup fs1 l) as [[?|]|]; simplify_eq.
    + intros k' Hk'. by apply Hn3.
Qed.

Lemma saves_keep_entries saves : ∀ w,
  let w' := run saves w in
  FS.cwd (w_fs w') = FS.cwd (w_fs w)
  ∧ ∃ evs,
      w_trace w' = w_trace w ++ evs
      ∧ ∀ k nd, FS.nodes (w_fs w) !! k = Some nd →
          FS.nodes (w_fs w') !! k = Some nd
          ∨ ∃ b text, nd = File b ∧ Write k text ∈ evs.
Proof.
  induction saves as [|s saves IH]; intros w.
  { cbn. split; [done|]. exists []. rewrite app_nil_r. split; [done|].
    by left. }
  change (run (s :: saves) w) with (run saves (on_save dir_path host
    from_filename s w).2).
  destruct (save_keeps_entries (s_model s) (s_os_path s)
              (s_contents_manager s) (s_kwargs s) w)
    as (Hc1 & evs1 & Ht1 & Hn1).
  fold (on_save dir_path host from_filename s w) in Hc1, Ht1, Hn1.
  set (w1 := (on_save dir_path host from_filename s w).2) in *.
  destruct (IH w1) as (Hc2 & evs2 & Ht2 & Hn2). cbv zeta.
  split; [congruence|]. exists (evs1 ++ evs2).
  split; [by rewrite Ht2, Ht1, app_assoc|].
  intros k nd Hk. destruct (Hn1 k nd Hk) as [Hk1|(b & text & -> & Hin)].
  - destruct (Hn2 k nd Hk1) as [Hk2|(b & text & -> & Hin)]; [by left|].
    right. exists b, text. split; [done|]. apply elem_of_app. by right.
  - right. exists b, text. split; [done|]. apply elem_of_app. by left.
Qed.

(** X7: whatever is saved in a process, and whether the hook returns or
    raises, the working directory stays, and every entry of the tree
    stays as it was, except the regular files that a [write] call made
    since names: no directory is removed or replaced, and no file that
    is not an export file is touched. *)
Theorem saves_keep_other_entries saves w :
  let w' := run saves w in
  FS.cwd (w_fs w') = FS.cwd (w_fs w)
  ∧ ∀ k nd, FS.nodes (w_fs w) !! k = Some nd →
      FS.nodes (w_fs w') !! k = Some nd
      ∨ ∃ b text, nd = File b ∧ Write k text ∈ calls_since w w'.
Proof.
  destruct (saves_keep_entries saves w) as (Hc & evs & Ht & Hn).
  cbv zeta. split; [done|]. unfold calls_since.
  by rewrite Ht, drop_app_length.
Qed.

Lemma saves_conversions saves : ∀ w,
  ∃ evs,
    w_trace (run saves w) = w_trace w ++ evs
    ∧ List.filter is_conversion evs =
        match notebooks_of saves with
        | [] => []
        | s0 :: _ =>
            map (λ s, FromFilename
                        (exporter_in_use dir_path (s_contents_manager s0) w)
                        (s_os_path s))
              (notebooks_of saves)
        end.
Proof.
  induction saves as [|s saves IH]; intros w.
  { exists []. by rewrite app_nil_r. }
  change (run (s :: saves) w) with (run saves (on_save dir_path host
    from_filename s w).2).
  set (w1 := (on_save dir_path host from_filename s w).2).
  destruct (IH w1) as (evs2 & Ht2 & Hf2). clear IH.
  unfold notebooks_of in *. cbn [List.filter].
  destruct (is_notebook (s_model s)) eqn:Hnb.
  - destruct (notebook_save_exporter dir_path host from_filename
                (s_model s) (s_os_path s)
                (s_contents_manager s) (s_kwargs s) w Hnb)
      as (Hx & rest & Htr & Hrc & Hrf).
    fold (on_save dir_path host from_filename s w) in Hx, Htr.
    fold w1 in Hx, Htr.
    eexists. split; [rewrite Ht2, Htr, <- !app_assoc; reflexivity|].
    rewrite !List.filter_app. cbn [List.filter is_conversion].
    rewrite Hrf, Hf2.
    assert (List.filter is_conversion (construction (s_contents_manager s) w)
            = []) as ->
      by (unfold construction; by destruct (w_script_exporter w)).
    cbn [app map]. f_equal.
    destruct (List.filter _ saves) as [|s1 nbs]; [done|].
    apply map_ext. intros s2. unfold exporter_in_use at 1. by rewrite Hx.
  - assert (Hw1 : w1 = w) by (by apply other_save_world).
    clearbody w1. subst w1. by exists evs2.
Qed.

(** X8: the conversions of a process are those of its notebook saves, one
    for each, in the order of the saves and each of the path saved; all of
    them are made with one exporter, the one in use at the first notebook
    save. Saves of other types convert nothing. *)
Theorem conversions_follow_notebook_saves saves w :
  List.filter is_conversion (calls_since w (run saves w)) =
    match notebooks_of saves with
    | [] => []
    | s0 :: _ =>
        map (λ s, FromFilename
                    (exporter_in_use dir_path (s_contents_manager s0) w)
                    (s_os_path s))
          (notebooks_of saves)
    end.
Proof.
  destruct (saves_conversions saves w) as (evs & Ht & Hf).
  unfold calls_since. by rewrite Ht, drop_app_length.
Qed.

End SavesFacts.

Lemma file_in_the_way_raises_witness :
  script_post_save Demo.dir_path Demo.host_lf Demo.python Demo.notebook
    Demo.nested_ipynb Demo.manager ∅ Demo.blocked
  = (inl (OSError ENOTDIR),
     with_calls Demo.blocked (w_fs Demo.blocked)
       (Some (new_exporter Demo.dir_path Demo.manager))
       [Construct Demo.manager;
        FromFilename (new_exporter Demo.dir_path Demo.manager)
          Demo.nested_ipynb;
        Makedirs (lit "/proj/.nbexports/a/b") true]).
Proof.
  refine (file_in_the_way_raises Demo.dir_path Demo.host_lf Demo.python
            Demo.notebook Demo.nested_ipynb
            Demo.manager ∅ Demo.blocked Demo.script
            {[ "output_extension" := lit ".py" ]}
            [lit "proj"] (lit ".nbexports") [lit "a"; lit "b"] []
            eq_refl eq_refl _ _ _ _ _).
  - vm_compute. reflexivity.
  - compute_done.
  - vm_compute. reflexivity.
  - compute_done.
  - vm_compute. reflexivity.
Defined.

Lemma unencodable_script_empties_export_witness :
  let r := script_post_save Demo.dir_path Demo.host_lf Cases.surrogate
             Demo.notebook Demo.demo_ipynb Demo.manager ∅
             Cases.exported_before in
  FS.read (w_fs Cases.exported_before) (lit "/proj/.nbexports/demo.py")
    = Some [111%N; 108%N; 100%N]
  ∧ r.1 = inl UnicodeEncodeError
  ∧ FS.read (w_fs r.2) (lit "/proj/.nbexports/demo.py") = Some [].
Proof.
  split; [vm_compute; reflexivity|].
  destruct (unencodable_script_empties_export Demo.dir_path Demo.host_lf
              Cases.surrogate Demo.notebook Demo.demo_ipynb Demo.manager ∅
              Cases.exported_before [0xD800%N]
              {[ "output_extension" := lit ".py" ]} eq_refl eq_refl)
    as (Hr & Hread & _).
  - unfold can_export, way_clear; repeat split; compute_done.
  - vm_compute. reflexivity.
  - split; [exact Hr|exact Hread].
Defined.

Lemma export_onto_directory_raises_witness :
  script_post_save Demo.dir_path Demo.host_lf Demo.python Demo.notebook
    Demo.demo_ipynb Demo.manager ∅ Cases.occupied
  = (inl (OSError EISDIR),
     with_calls Cases.occupied (w_fs Cases.occupied)
       (Some (new_exporter Demo.dir_path Demo.manager))
       [Construct Demo.manager;
        FromFilename (new_exporter Demo.dir_path Demo.manager)
          Demo.demo_ipynb;
        Makedirs (lit "/proj/.nbexports") true;
        LogInfo 7 (lit "Saving script /%s")
          [lit "/proj/.nbexports/demo.py"];
        Open (lit "/proj/.nbexports/demo.py") (Some (lit "utf-8"))
          (Some [LF])]).
Proof.
  refine (export_onto_directory_raises Demo.dir_path Demo.host_lf
            Demo.python Demo.notebook Demo.demo_ipynb Demo.manager ∅
            Cases.occupied Demo.script
            {[ "output_extension" := lit ".py" ]} eq_refl eq_refl _).
  vm_compute. reflexivity.
Defined.

(** ** The extension that [os.path.splitext] takes off *)

Lemma slice_one (p : pystr) (f : Z) (c : char) :
  0 ≤ f → Str.slice p f (f + 1) = [c] ↔ p !! Z.to_nat f = Some c.
Proof.
  intros Hf. unfold Str.slice, Str.upto, Str.from.
  replace (f + 1 - f) with 1 by lia. change (Z.to_nat 1) with 1%nat.
  rewrite <- (Nat.add_0_r (Z.to_nat f)) at 2. rewrite <- lookup_drop.
  destruct (drop (Z.to_nat f) p) as [|x t]; cbn; [done|].
  rewrite take_0. split; congruence.
Qed.

Lemma splitext_loop_stops (j : nat) : ∀ (p : pystr) (d : Z) (k : nat) (f : Z),
  0 ≤ f → (j < k)%nat →
  (∀ i, (i < j)%nat → p !! (Z.to_nat f + i)%nat = Some extsep) →
  p !! (Z.to_nat f + j)%nat ≠ Some extsep →
  Path.splitext_loop p d k f = Some (Str.upto p d, Str.from p d).
Proof.
  induction j as [|j IH]; intros p d k f Hf Hk Hdots Hc;
    (destruct k as [|k]; [lia|]); cbn [Path.splitext_loop].
  - rewrite decide_True; [done|]. rewrite Nat.add_0_r in Hc.
    by rewrite slice_one.
  - rewrite decide_False.
    2:{ intros Hne. apply Hne. apply slice_one; [done|].
        rewrite <- (Nat.add_0_r (Z.to_nat f)). apply Hdots. lia. }
    apply IH; [lia|lia| |].
    + intros i Hi. replace (Z.to_nat (f + 1) + i)%nat
        with (Z.to_nat f + S i)%nat by lia. apply Hdots. lia.
    + by replace (Z.to_nat (f + 1) + j)%nat
        with (Z.to_nat f + S j)%nat by lia.
Qed.

Lemma splitext_loop_dots (k : nat) : ∀ (p : pystr) (d f : Z),
  0 ≤ f →
  (∀ i, (i < k)%nat → p !! (Z.to_nat f + i)%nat = Some extsep) →
  Path.splitext_loop p d k f = None.
Proof.
  induction k as [|k IH]; intros p d f Hf Hdots; [done|].
  cbn [Path.splitext_loop]. rewrite decide_False.
  2:{ intros Hne. apply Hne. apply slice_one; [done|].
      rewrite <- (Nat.add_0_r (Z.to_nat f)). apply Hdots. lia. }
  apply IH; [lia|]. intros i Hi.
  replace (Z.to_nat (f + 1) + i)%nat with (Z.to_nat f + S i)%nat by lia.
  apply Hdots. lia.
Qed.

Lemma rfind_last_only (c : char) (s t : pystr) :
  c ∉ t → Str.rfind c (s ++ c :: t) = Z.of_nat (length s).
Proof.
  intros Ht. rewrite rfind_app. cbn [Str.rfind].
  rewrite (rfind_absent c t Ht). cbn. rewrite decide_True by done.
  cbn. lia.
Qed.

Lemma times_lookup (c : char) (n i : nat) :
  (i < n)%nat → Str.times c n !! i = Some c.
Proof. intros. unfold Str.times. by apply lookup_replicate_2. Qed.

Lemma times_free (c x : char) (n : nat) : x ≠ c → x ∉ Str.times c n.
Proof.
  intros Hx Hin. unfold Str.times in Hin.
  by apply elem_of_replicate in Hin as [-> _].
Qed.

(** X9: [os.path.splitext] takes off the text from the last dot of the
    last name of the path, provided that a character other than a dot
    comes before it in that name; leading dots of the name, and dots in
    the directories, are no extension. *)
Theorem splitext_takes_last_extension (a : pystr) (n : nat) (c : char)
    (s e : pystr) :
  dir_part a → c ≠ extsep → c ≠ sep → sep ∉ s → sep ∉ e → extsep ∉ e →
  Path.splitext (a ++ Str.times extsep n ++ c :: s ++ extsep :: e)
  = (a ++ Str.times extsep n ++ c :: s, extsep :: e).
Proof.
  intros Ha Hc1 Hc2 Hs He1 He2. rewrite splitext_under by done.
  set (stem := Str.times extsep n ++ c :: s).
  assert (Str.times extsep n ++ c :: s ++ extsep :: e
          = stem ++ extsep :: e) as ->
    by (unfold stem; by rewrite <- app_assoc).
  assert (Path.splitext (stem ++ extsep :: e) = (stem, extsep :: e)) as ->;
    [|done].
  unfold Path.splitext. rewrite (rfind_last_only extsep stem e He2).
  rewrite rfind_absent.
  2:{ unfold stem. rewrite !not_elem_of_app, !not_elem_of_cons.
      repeat split; try done. by apply times_free. }
  assert ((-1 <? Z.of_nat (length stem)) = true) as ->
    by (apply Z.ltb_lt; lia).
  cbv zeta. change (-1 + 1) with 0. rewrite Z.sub_0_r, Nat2Z.id.
  rewrite (splitext_loop_stops n).
  - by rewrite upto_app_length, from_app_length.
  - done.
  - unfold stem. rewrite length_app. unfold Str.times.
    rewrite length_replicate. cbn. lia.
  - intros i Hi. cbn. unfold stem. rewrite <- app_assoc.
    rewrite lookup_app_l by (unfold Str.times; by rewrite length_replicate).
    by apply times_lookup.
  - cbn. unfold stem. rewrite <- app_assoc.
    rewrite lookup_app_r by (unfold Str.times; by rewrite length_replicate).
    unfold Str.times. rewrite length_replicate, Nat.sub_diag. cbn.
    congruence.
Qed.

Lemma splitext_takes_last_extension_witness :
  Path.splitext (lit "/srv/v1.2/.notes.tar.ipynb")
  = (lit "/srv/v1.2/.notes.tar", lit ".ipynb").
Proof.
  refine (splitext_takes_last_extension (lit "/srv/v1.2/") 1 110%N
            (lit "otes.tar") (lit "ipynb") _ _ _ _ _ _).
  - right. vm_compute. reflexivity.
  - compute_done.
  - compute_done.
  - compute_done.
  - compute_done.
  - compute_done.
Defined.

(** X10: a last name without a dot, or with none but leading dots, has no
    extension: [os.path.splitext] returns the path whole. *)
Theorem splitext_keeps_dotfile (a : pystr) (n : nat) (s : pystr) :
  dir_part a → sep ∉ s → extsep ∉ s →
  Path.splitext (a ++ Str.times extsep n ++ s)
  = (a ++ Str.times extsep n ++ s, []).
Proof.
  intros Ha Hs1 Hs2. rewrite splitext_under by done.
  assert (Path.splitext (Str.times extsep n ++ s)
          = (Str.times extsep n ++ s, [])) as ->; [|done].
  unfold Path.splitext. rewrite (rfind_absent sep).
  2:{ rewrite not_elem_of_app. split; [by apply times_free|done]. }
  destruct (-1 <? Str.rfind extsep (Str.times extsep n ++ s)) eqn:Hlt;
    [|done].
  cbv zeta. change (-1 + 1) with 0. rewrite Z.sub_0_r.
  rewrite splitext_loop_dots; [done|done|].
  intros i Hi. cbn.
  assert (Str.rfind extsep (Str.times extsep n ++ s) < Z.of_nat n).
  { rewrite rfind_app, (rfind_absent extsep s Hs2). cbn.
    pose proof (rfind_upper extsep (Str.times extsep n)) as Hu.
    unfold Str.times in Hu at 2. by rewrite length_replicate in Hu. }
  rewrite lookup_app_l
    by (unfold Str.times; rewrite length_replicate; lia).
  apply times_lookup. lia.
Qed.

Lemma splitext_keeps_dotfile_witness :
  Path.splitext (lit "/srv/v1.2/.ipynb") = (lit "/srv/v1.2/.ipynb", []).
Proof.
  refine (splitext_keeps_dotfile (lit "/srv/v1.2/") 1 (lit "ipynb") _ _ _).
  - right. vm_compute. reflexivity.
  - compute_done.
  - compute_done.
Defined.

(** ** What reaches the export file *)

Lemma utf8_char_none (c : N) :
  IO.utf8_char c = None ↔ (0xD800 ≤ c ≤ 0xDFFF ∨ 0x110000 ≤ c)%N.
Proof.
  unfold IO.utf8_char.
  destruct (c <? 0x80)%N eqn:H1; [apply N.ltb_lt in H1; split; [done|lia]|].
  destruct (c <? 0x800)%N eqn:H2; [apply N.ltb_lt in H2; split; [done|lia]|].
  apply N.ltb_ge in H1, H2.
  destruct (c <? 0x10000)%N eqn:H3.
  - apply N.ltb_lt in H3.
    destruct ((0xD800 <=? c) && (c <=? 0xDFFF))%N eqn:H4.
    + apply andb_true_iff in H4 as [?%N.leb_le ?%N.leb_le].
      split; [intros _; left; lia|done].
    + split; [done|]. intros [[Ha Hb]|?]; [|lia].
      apply N.leb_le in Ha, Hb. by rewrite Ha, Hb in H4.
  - apply N.ltb_ge in H3.
    destruct (c <? 0x110000)%N eqn:H5.
    + apply N.ltb_lt in H5. split; [done|lia].
    + apply N.ltb_ge in H5. split; [intros _; by right|done].
Qed.

Lemma encode_utf8_cons (c : N) (s : pystr) :
  IO.encode UTF8 (c :: s) =
    match IO.utf8_char c, IO.encode UTF8 s with
    | Some b, Some r => Some (b ++ r)
    | _, _ => None
    end.
Proof. reflexivity. Qed.

Lemma encode_ascii (s : pystr) :
  Forall (λ c, (c < 0x80)%N) s → IO.encode UTF8 s = Some s.
Proof.
  induction 1 as [|c s Hc _ IH]; [done|]. rewrite encode_utf8_cons, IH. unfold IO.utf8_char.
  by rewrite (proj2 (N.ltb_lt _ _) Hc).
Qed.

(** X11: encoding a script as UTF-8 fails exactly when the script holds a
    surrogate (or a number beyond the last code point, which no Python
    string holds); every other script has an encoding. *)
Theorem utf8_fails_only_on_surrogates (s : pystr) :
  IO.encode UTF8 s = None
  ↔ Exists (λ c, (0xD800 ≤ c ≤ 0xDFFF ∨ 0x110000 ≤ c)%N) s.
Proof.
  induction s as [|c s IH]; [split; [done|by intros ?%Exists_nil]|].
  rewrite encode_utf8_cons, Exists_cons, <- IH.
  rewrite <- utf8_char_none.
  destruct (IO.utf8_char c), (IO.encode UTF8 s); split; try done;
    try (by intros [|]); by auto.
Qed.

Section ExportedFile.

Variable dir_path : pystr.
Variable host : platform.
Variable from_filename :
  Exporter → FS.t → pystr → exn + (pystr * gmap string pystr).

Local Abbreviation hook := (script_post_save dir_path host from_filename).

(** X12: a script of ASCII characters reaches the export file character
    for byte, its line feeds included, whatever the host's line ending
    and preferred encoding are. *)
Theorem ascii_script_is_stored_verbatim model os_path cm kwargs w script
    resources :
  model !! "type" = Some (lit "notebook") →
  let x := exporter_in_use dir_path cm w in
  from_filename x (w_fs w) os_path = inr (script, resources) →
  let ext := default (lit ".txt") (resources !! "output_extension") in
  let target := export_target dir_path (root_dir cm) os_path ext in
  can_export (w_fs w) target →
  Forall (λ c, (c < 0x80)%N) script →
  let r := hook model os_path cm kwargs w in
  r.1 = inr () ∧ FS.read (w_fs r.2) target = Some script.
Proof.
  intros Hty x Hconv. subst x. cbv zeta. intros Hcan Hascii.
  rewrite (export_succeeds dir_path host from_filename model os_path cm
             kwargs w script resources script Hty Hconv Hcan
             (encode_ascii script Hascii)).
  cbn [fst snd with_calls w_fs]. split; [done|].
  destruct (can_export_target _ _ Hcan) as [Hopen _]. cbv zeta in Hopen.
  destruct (open_w_read _ _ _ _ script Hopen) as (Hread & _ & _).
  by rewrite append_opened in Hread.
Qed.

(** X13: a successful export changes the tree at the export file, which
    holds the encoded script, and at the directories on the way to it,
    and nowhere else. *)
Theorem export_changes_only_its_own_path model os_path cm kwargs w script
    resources (b : bytes) :
  model !! "type" = Some (lit "notebook") →
  let x := exporter_in_use dir_path cm w in
  from_filename x (w_fs w) os_path = inr (script, resources) →
  let ext := default (lit ".txt") (resources !! "output_extension") in
  let target := export_target dir_path (root_dir cm) os_path ext in
  let d := Path.dirname target in
  can_export (w_fs w) target →
  IO.encode UTF8 script = Some b →
  let r := hook model os_path cm kwargs w in
  ∀ k, FS.nodes (w_fs r.2) !! k =
         if decide (k = FS.start (w_fs w) target ++ FS.components target)
         then Some (File b)
         else if decide (k ∈ chain (FS.start (w_fs w) d) (FS.components d))
         then Some Dir
         else FS.nodes (w_fs w) !! k.
Proof.
  intros Hty x Hconv. subst x. cbv zeta. intros Hcan Henc k.
  rewrite (export_succeeds dir_path host from_filename model os_path cm
             kwargs w script resources b Hty Hconv Hcan Henc).
  cbn [fst snd with_calls w_fs]. unfold exported. cbn [FS.nodes].
  destruct (decide (k = _)) as [->|Hne].
  - by rewrite lookup_insert_eq.
  - rewrite lookup_insert_ne by done. apply add_dirs_nodes.
Qed.

End ExportedFile.

Lemma ascii_script_is_stored_verbatim_witness :
  let r := script_post_save Demo.dir_path Demo.host_crlf Demo.python
             Demo.notebook Demo.demo_ipynb Demo.manager ∅ Demo.start in
  r.1 = inr ()
  ∧ FS.read (w_fs r.2) (lit "/proj/.nbexports/demo.py")
    = Some (lit "print(1)" ++ [LF]).
Proof.
  refine (ascii_script_is_stored_verbatim Demo.dir_path Demo.host_crlf
            Demo.python Demo.notebook Demo.demo_ipynb Demo.manager ∅
            Demo.start Demo.script {[ "output_extension" := lit ".py" ]}
            eq_refl eq_refl _ _).
  - unfold can_export, way_clear; repeat split; compute_done.
  - compute_done.
Defined.

Lemma export_changes_only_its_own_path_witness :
  let r := script_post_save Demo.dir_path Demo.host_lf Demo.python
             Demo.notebook Demo.nested_ipynb Demo.manager ∅
             Cases.exported_before in
  FS.nodes (w_fs r.2) !! [lit "proj"; lit ".nbexports"; lit "demo.py"]
    = Some (File [111%N; 108%N; 100%N])
  ∧ FS.nodes (w_fs r.2) !! [lit "proj"; lit ".nbexports"; lit "a"]
    = Some Dir
  ∧ FS.nodes (w_fs r.2) !! [lit "proj"; lit "a"] = None.
Proof.
  pose proof (export_changes_only_its_own_path Demo.dir_path Demo.host_lf
                Demo.python Demo.notebook Demo.nested_ipynb Demo.manager ∅
                Cases.exported_before Demo.script
                {[ "output_extension" := lit ".py" ]}
                (lit "print(1)" ++ [LF]) eq_refl eq_refl) as H.
  cbv zeta in H.
  assert (can_export (w_fs Cases.exported_before)
            (export_target Demo.dir_path (root_dir Demo.manager)
               Demo.nested_ipynb (lit ".py"))) as Hcan
    by (unfold can_export, way_clear; repeat split; compute_done).
  specialize (H Hcan eq_refl). cbv zeta.
  rewrite !H. repeat split; vm_compute; reflexivity.
Defined.
